(** * StudyPlanner: the scheduling core of [script.js]

    A shallow embedding of [validateInputs], [parseSubjects],
    [generateStudyPlan] and [calculateStudyPlan], and the properties of the
    schedule they produce.

    Modelling decisions.
    - JavaScript numbers that hold hours are exact rationals ([Q]), as the
      specification has them; counters ([day], [subjectIndex],
      [totalDays]) are natural numbers.  The rounding of the double
      arithmetic the code runs on is not followed: in exact arithmetic
      rounding to two decimals moves a session by at most half a
      hundredth, and most bounds are stated with a hundredth per session;
      a statement that needs exact arithmetic says so.
    - [remainingHours], a JavaScript object used as a dictionary from subject
      name to hours, is a [gmap string Q] of its own entries.  The one name
      the object treats otherwise, [__proto__], never gets an entry
      ([set_hours]); a subject of that name is never served and never
      counts as exhausted.
    - The [while] loop is a structurally recursive function on a fuel
      argument; [fill_day_fuel_enough] and [calculateStudyPlan_terminates]
      show that the fuel supplied by [calculateStudyPlan_run] is never used
      up, for any input.
    - Fields marked "ghost" record what the code computes but does not
      return (the unrounded session lengths, the way a loop was left, the
      states a loop went through).  No computation reads them. *)

From Stdlib Require Import QArith Qminmax Qround Qreduction Qabs Lqa Lia Ascii Sorted.
From stdpp Require Import gmap strings list.

Local Open Scope Q_scope.

(** ** JavaScript primitives *)

(** [x > 0] on numbers. *)
Definition Qpositive (x : Q) : bool := negb (Qle_bool x 0).

(** [Math.min(a, b, c)]. *)
Definition Math_min (a b c : Q) : Q := Qmin (Qmin a b) c.

(** Nearest integer, ties upwards, of a non-negative number. *)
Definition round_half_up (x : Q) : Z := Qfloor (x + (1 # 2)).

(** [parseFloat(x.toFixed(2))]: [toFixed] picks the integer [n] with
    [n / 100] nearest to [|x|], the larger one on a tie, and keeps the sign;
    the decimal string read back is the number [n / 100]. *)
Definition toFixed2 (x : Q) : Q :=
  if Qle_bool 0 x
  then Qred (round_half_up (x * 100) # 100)
  else Qred (- (round_half_up (- x * 100) # 100)).

(** The property name under which a JavaScript object exposes its
    prototype. *)
Definition proto_name : string := "__proto__".

(** A counter read as a number. *)
Definition Qnat (n : nat) : Q := inject_Z (Z.of_nat n).

(** ** Data model *)

(** One entry of [dailySchedule.subjects]. *)
Record Allocation := mkAllocation { name : string; hours : Q }.

(** The object [dailySchedule]. *)
Record DayPlan := mkDayPlan {
  day : nat;
  subjects : list Allocation;
  totalHours : Q
}.

(** The variables the body of the [while] loop reads and writes. *)
Record LoopState := mkLoopState {
  remainingHours : gmap string Q;
  subjectIndex : nat;
  dailySchedule : DayPlan;
  remainingDailyHours : Q;
  (* ghost: each [hoursToAllocate] of the day, oldest first *)
  hoursAllocated : list Q
}.

(** Ghost: how a [while] loop was left. *)
Inductive LoopExit :=
  | DailyHoursUsed        (* the loop condition [remainingDailyHours > 0] failed *)
  | AllSubjectsExhausted  (* [break] of the first safety check *)
  | SafetyValve           (* [break] of the second safety check *)
  | OutOfFuel.            (* artefact of the embedding, see [fill_day_fuel_enough] *)

(** Ghost: one run of the [while] loop. *)
Record DayRun := mkDayRun {
  visited : list LoopState;  (* the state at each loop test and after a [break] *)
  final : LoopState;
  exit : LoopExit
}.

(** Ghost: one call of [calculateStudyPlan]. *)
Record PlanRun := mkPlanRun {
  schedule : list DayPlan;
  dayRuns : list DayRun;           (* one per iteration of the [for] loop *)
  remainingAtEnd : gmap string Q
}.

(** ** [calculateStudyPlan] *)

Section Scheduler.

Variable subjectNames : list string.   (* the parameter [subjects] *)
Variable hoursPerDay : Q.
Variable totalDays : nat.

(** [remainingHours[s] <= 0]; [undefined <= 0] is false. *)
Definition exhausted (rem : gmap string Q) (s : string) : bool :=
  match rem !! s with
  | Some r => Qle_bool r 0
  | None => false
  end.

(** [subjects.length * totalDays * 10]. *)
Definition valveLimit : nat := (length subjectNames * totalDays * 10)%nat.

(** The [if (remainingHours[currentSubject] > 0) { ... }] block. *)
Definition allocate (currentSubject : string) (r : Q) (st : LoopState) : LoopState :=
  let hoursToAllocate := Math_min (remainingDailyHours st) r 2 in
  let ds := dailySchedule st in
  {| remainingHours := <[currentSubject := r - hoursToAllocate]> (remainingHours st);
     subjectIndex := subjectIndex st;
     dailySchedule :=
       {| day := day ds;
          subjects := subjects ds ++ [mkAllocation currentSubject (toFixed2 hoursToAllocate)];
          totalHours := totalHours ds + hoursToAllocate |};
     remainingDailyHours := remainingDailyHours st - hoursToAllocate;
     hoursAllocated := hoursAllocated st ++ [hoursToAllocate] |}.

(** Lines 135-157: pick the subject under the cursor and give it a session
    when it has hours left.  On the empty list the index is [NaN], the
    subject [undefined], and nothing is allocated. *)
Definition offer (st : LoopState) : LoopState :=
  match subjectNames !! (subjectIndex st mod length subjectNames)%nat with
  | Some currentSubject =>
      match remainingHours st !! currentSubject with
      | Some r => if Qpositive r then allocate currentSubject r st else st
      | None => st
      end
  | None => st
  end.

(** [subjectIndex++]. *)
Definition advance (st : LoopState) : LoopState :=
  {| remainingHours := remainingHours st;
     subjectIndex := S (subjectIndex st);
     dailySchedule := dailySchedule st;
     remainingDailyHours := remainingDailyHours st;
     hoursAllocated := hoursAllocated st |}.

(** One pass through the body of the [while] loop: the state it leaves and
    the [break] it took, if any. *)
Definition session (st : LoopState) : LoopState * option LoopExit :=
  let st' := advance (offer st) in
  if forallb (exhausted (remainingHours st')) subjectNames
  then (st', Some AllSubjectsExhausted)
  else if (valveLimit <? subjectIndex st')%nat
       then (st', Some SafetyValve)
       else (st', None).

(** [while (remainingDailyHours > 0) { ... }]. *)
Fixpoint fill_day (fuel : nat) (st : LoopState) : DayRun :=
  if Qpositive (remainingDailyHours st) then
    match fuel with
    | O => mkDayRun [st] st OutOfFuel
    | S fuel' =>
        match session st with
        | (st', Some e) => mkDayRun [st; st'] st' e
        | (st', None) =>
            let r := fill_day fuel' st' in
            mkDayRun (st :: visited r) (final r) (exit r)
        end
    end
  else mkDayRun [st] st DailyHoursUsed.

(** The state at the top of the [for] body. *)
Definition start_of_day (d : nat) (rem : gmap string Q) (idx : nat) : LoopState :=
  {| remainingHours := rem;
     subjectIndex := idx;
     dailySchedule := {| day := d; subjects := []; totalHours := 0 |};
     remainingDailyHours := hoursPerDay;
     hoursAllocated := [] |}.

(** Lines 177-180: a day with sessions is pushed with its total rounded. *)
Definition push_day (ds : DayPlan) (sched : list DayPlan) : list DayPlan :=
  match subjects ds with
  | [] => sched
  | _ :: _ =>
      sched ++ [{| day := day ds; subjects := subjects ds;
                   totalHours := toFixed2 (totalHours ds) |}]
  end.

(** Fuel that lets the cursor run from [idx] past [valveLimit]. *)
Definition day_fuel (idx : nat) : nat := S (valveLimit - idx).

(** [for (let day = d; day <= totalDays; day++)], with [todo] iterations
    to go. *)
Fixpoint day_loop (todo d : nat) (rem : gmap string Q) (idx : nat)
    (sched : list DayPlan) : PlanRun :=
  match todo with
  | O => mkPlanRun sched [] rem
  | S todo' =>
      let run := fill_day (day_fuel idx) (start_of_day d rem idx) in
      let st := final run in
      let rest := day_loop todo' (S d) (remainingHours st) (subjectIndex st)
                    (push_day (dailySchedule st) sched) in
      mkPlanRun (schedule rest) (run :: dayRuns rest) (remainingAtEnd rest)
  end.

(** [hoursPerDay * totalDays / subjects.length]. *)
Definition hoursPerSubject : Q :=
  hoursPerDay * Qnat totalDays / Qnat (length subjectNames).

(** [remainingHours[subject] = hours] on the object [{}]: a name gets an
    own entry, except [__proto__]: a number assigned under that name is
    ignored and no entry is kept.  What is read back there, the object's
    prototype, is neither [> 0] nor [<= 0], like [undefined] for a name
    without entry. *)
Definition set_hours (subject : string) (hours : Q) (rem : gmap string Q) :
    gmap string Q :=
  if String.eqb subject proto_name then rem else <[subject := hours]> rem.

(** [subjects.forEach(subject => remainingHours[subject] = hoursPerSubject)]. *)
Definition initialHours : gmap string Q :=
  foldl (fun rem subject => set_hours subject hoursPerSubject rem) ∅ subjectNames.

Definition calculateStudyPlan_run : PlanRun :=
  day_loop totalDays 1 initialHours 0 [].

Definition calculateStudyPlan : list DayPlan := schedule calculateStudyPlan_run.

End Scheduler.

(** ** The caller: [validateInputs], [parseSubjects], [generateStudyPlan]

    The form fields reach [generateStudyPlan] as a string and two numbers:
    [parseFloat] and [parseInt] yield a number or [NaN] ([None]).  Strings
    are sequences of characters below 256; [is_whitespace] is the white
    space of JavaScript among the characters below 128 ([is_ascii]).
    JavaScript's [trim] also strips U+00A0, U+FEFF and the other Unicode
    spaces, which [trim] here does not follow: a statement about [trim]
    on strings not known to be blank is about strings of characters below
    128. *)

Definition is_ascii (c : ascii) : bool := (nat_of_ascii c <? 128)%nat.

Definition is_whitespace (c : ascii) : bool :=
  match c with
  | " "%char | "009"%char | "010"%char | "011"%char | "012"%char | "013"%char => true
  | _ => false
  end.

Fixpoint trimStart (s : string) : string :=
  match s with
  | String c rest => if is_whitespace c then trimStart rest else s
  | EmptyString => EmptyString
  end.

Definition reverse_string (s : string) : string :=
  String.string_of_list_ascii (rev (String.list_ascii_of_string s)).

(** [s.trim()]. *)
Definition trim (s : string) : string :=
  reverse_string (trimStart (reverse_string (trimStart s))).

(** [s.split(',')]: the pieces between the commas, at least one. *)
Fixpoint split_comma (s : string) : list string :=
  match s with
  | EmptyString => [EmptyString]
  | String c rest =>
      if Ascii.eqb c ","%char then EmptyString :: split_comma rest
      else match split_comma rest with
           | piece :: pieces => String c piece :: pieces
           | [] => [String c EmptyString]
           end
  end.

(** The result object of [validateInputs]. *)
Record Validation := mkValidation { isValid : bool; message : option string }.

Definition validateInputs (subjectsValue : string) (hoursPerDay : option Q)
    (daysLeft : option Z) : Validation :=
  (* [!subjects]: the empty string is falsy *)
  if String.eqb subjectsValue EmptyString then
    mkValidation false (Some "⚠️ Please enter at least one subject."%string)
  else match hoursPerDay with
  | None => (* [!NaN] *)
      mkValidation false (Some "⚠️ Please enter valid hours per day (greater than 0)."%string)
  | Some h =>
    if Qle_bool h 0 then (* [!0 || hoursPerDay <= 0] *)
      mkValidation false (Some "⚠️ Please enter valid hours per day (greater than 0)."%string)
    else if negb (Qle_bool h 24) then
      mkValidation false (Some "⚠️ Hours per day cannot exceed 24 hours."%string)
    else match daysLeft with
    | None =>
        mkValidation false (Some "⚠️ Please enter valid number of days (greater than 0)."%string)
    | Some d =>
      if (d <=? 0)%Z then
        mkValidation false (Some "⚠️ Please enter valid number of days (greater than 0)."%string)
      else mkValidation true None
    end
  end.

Definition parseSubjects (subjectsString : string) : list string :=
  List.filter (fun subject => (0 <? String.length subject)%nat)
              (trim <$> split_comma subjectsString).

(** What [generateStudyPlan] does with the page: [showError(message)], or
    [displayResults(studyPlan, subjects.length, hoursPerDay, daysLeft)]. *)
Inductive PageUpdate :=
  | showError (message : option string)
  | displayResults (studyPlan : list DayPlan) (numSubjects : nat)
                   (hoursPerDay : Q) (daysLeft : Z).

Definition generateStudyPlan (subjectsField : string) (hoursPerDay : option Q)
    (daysLeft : option Z) : PageUpdate :=
  let subjectsValue := trim subjectsField in
  let validation := validateInputs subjectsValue hoursPerDay daysLeft in
  if negb (isValid validation) then showError (message validation)
  else
    match hoursPerDay, daysLeft with
    | Some h, Some d =>
        let subjects := parseSubjects subjectsValue in
        let studyPlan := calculateStudyPlan subjects h (Z.to_nat d) in
        displayResults studyPlan (length subjects) h d
    | _, _ => showError None (* not reached: the validation has rejected [NaN] *)
    end.

(** ** Vocabulary of the properties *)

(** Sum of a list of numbers. *)
Definition Qsum (l : list Q) : Q := foldr Qplus 0 l.

(** The preconditions of the scheduler: at least one subject, names unique
    and non-empty, hours per day in (0, 24], at least one day. *)
Definition valid_input (subjectNames : list string) (hoursPerDay : Q)
    (totalDays : nat) : Prop :=
  subjectNames <> [] /\ NoDup subjectNames /\
  Forall (fun s => s <> EmptyString) subjectNames /\
  0 < hoursPerDay /\ hoursPerDay <= 24 /\ (1 <= totalDays)%nat.

(** The hours still owed to [s]; [0] for a name without an entry. *)
Definition budget (rem : gmap string Q) (s : string) : Q := default 0 (rem !! s).

(** The hours still owed to all subjects together. *)
Definition total_budget (subjectNames : list string) (rem : gmap string Q) : Q :=
  Qsum (budget rem <$> subjectNames).

(** Every subject has an entry, and it is not negative. *)
Definition budgets_nonneg (subjectNames : list string) (rem : gmap string Q) : Prop :=
  forall s, s ∈ subjectNames -> exists r, rem !! s = Some r /\ 0 <= r.

(** Every subject has an entry, and it is zero. *)
Definition budgets_zero (subjectNames : list string) (rem : gmap string Q) : Prop :=
  forall s, s ∈ subjectNames -> exists r, rem !! s = Some r /\ r == 0.


(** [remainingHours[s] > 0], the test that gives [s] a session. *)
Definition has_hours (rem : gmap string Q) (s : string) : bool :=
  match rem !! s with
  | Some r => Qpositive r
  | None => false
  end.

(** No subject can be given a session. *)
Definition idle (subjectNames : list string) (rem : gmap string Q) : bool :=
  forallb (fun s => negb (has_hours rem s)) subjectNames.

(** How often the cursor has stood on position [p] of [n] subjects once it
    has reached [idx]. *)
Definition turns (n p idx : nat) : nat := ((idx + (n - 1 - p)) / n)%nat.

(** Invariant of the [while] loop for the budgets: no entry is negative,
    the day's hours are not overdrawn, and, until every entry is zero, the
    budgets owed exceed the hours left in the day by the constant [c]. *)
Definition budget_inv (subjectNames : list string) (c : Q) (st : LoopState) : Prop :=
  budgets_nonneg subjectNames (remainingHours st) /\
  0 <= remainingDailyHours st /\
  (budgets_zero subjectNames (remainingHours st) \/
   total_budget subjectNames (remainingHours st) - remainingDailyHours st == c).

(** The budget used up by a subject that still has hours left accounts
    for its turns: two hours for every turn, less two hours for each of
    the [k] sessions that a day's end may have cut short.  [b] is the
    initial budget. *)
Definition turn_inv (subjectNames : list string) (b : Q) (k idx : nat)
    (rem : gmap string Q) : Prop :=
  forall p s r, subjectNames !! p = Some s -> rem !! s = Some r -> 0 < r ->
    2 * Qnat (turns (length subjectNames) p idx) <= b - r + 2 * Qnat k.

(** Invariant of the [while] loop of the day after [k] completed days: at
    most [k] sessions were cut short while the day has hours left, and at
    most one more once its hours are used up. *)
Definition valve_inv (subjectNames : list string) (b : Q) (k : nat)
    (st : LoopState) : Prop :=
  (0 < remainingDailyHours st ->
   turn_inv subjectNames b k (subjectIndex st) (remainingHours st)) /\
  turn_inv subjectNames b (S k) (subjectIndex st) (remainingHours st).

(** Invariant of the [while] loop for the day's record: the recorded
    hours are the rounded session lengths, the running total is their
    unrounded sum, and the sessions were taken out of the day's hours. *)
Definition round_inv (hoursPerDay : Q) (st : LoopState) : Prop :=
  hours <$> subjects (dailySchedule st) = toFixed2 <$> hoursAllocated st /\
  totalHours (dailySchedule st) == Qsum (hoursAllocated st) /\
  Forall (fun t => 0 < t) (hoursAllocated st) /\
  Qsum (hoursAllocated st) + remainingDailyHours st == hoursPerDay /\
  (hoursAllocated st = [] \/ 0 <= remainingDailyHours st).

(** The plan [push_day] appends for a day that has sessions. *)
Definition pushed (ds : DayPlan) : DayPlan :=
  {| day := day ds; subjects := subjects ds; totalHours := toFixed2 (totalHours ds) |}.

(** All sessions of a schedule, in order. *)
Definition allocations (sched : list DayPlan) : list Allocation :=
  sched ≫= subjects.

(** The recorded hours of a schedule, and those of one subject. *)
Definition recorded_hours (sched : list DayPlan) : Q :=
  Qsum (hours <$> allocations sched).

(** The sessions of subject [s]. *)
Definition sessions_of (s : string) (allocs : list Allocation) : list Allocation :=
  List.filter (fun a => String.eqb (name a) s) allocs.

Definition recorded_hours_of (s : string) (sched : list DayPlan) : Q :=
  Qsum (hours <$> sessions_of s (allocations sched)).



(** The subjects of scenario A: with six hours a day and ten days, the
    example the README walks through. *)
Definition scenarioA : list string := ["Math"; "Physics"; "Chemistry"]%string.


(** Accounts of one subject, counting its own sessions only. *)
Definition own_share_inv (a : Q) (s : string) (rem : gmap string Q)
    (allocs : list Allocation) : Prop :=
  a - budget rem s - (1 # 200) * Qnat (length (sessions_of s allocs))
    <= Qsum (hours <$> sessions_of s allocs) /\
  Qsum (hours <$> sessions_of s allocs)
    <= a - budget rem s + (1 # 200) * Qnat (length (sessions_of s allocs)).


(** What a recorded session may look like: a subject of the input, and
    between zero and two hours. *)
Definition session_ok (subjectNames : list string) (a : Allocation) : Prop :=
  name a ∈ subjectNames /\ 0 <= hours a /\ hours a <= 2.

(** Every character of [s] satisfies [f]. *)
Definition chars_all (f : ascii -> bool) (s : string) : bool :=
  forallb f (String.list_ascii_of_string s).

Definition is_comma (c : ascii) : bool := Ascii.eqb c ","%char.

(** A character that cannot be part of a subject name's core: white space
    or a comma. *)
Definition blank_char (c : ascii) : bool := is_whitespace c || is_comma c.

(** A subject name as [parseSubjects] returns it: not empty, with no comma,
    and with no white space at either end. *)
Definition clean_name (s : string) : Prop :=
  s <> EmptyString /\ trim s = s /\ chars_all (fun c => negb (is_comma c)) s = true.

(** [trimStart] on the list of characters. *)
Fixpoint drop_whitespace (l : list ascii) : list ascii :=
  match l with
  | c :: rest => if is_whitespace c then drop_whitespace rest else l
  | [] => []
  end.

(** ** Arithmetic of the primitives *)

Lemma Qpositive_true (x : Q) : Qpositive x = true <-> 0 < x.
Proof.
  unfold Qpositive. rewrite negb_true_iff, <- not_true_iff_false, Qle_bool_iff.
  split; [apply Qnot_le_lt | apply Qlt_not_le].
Qed.

Lemma Qpositive_false (x : Q) : Qpositive x = false <-> x <= 0.
Proof.
  unfold Qpositive. rewrite negb_false_iff. apply Qle_bool_iff.
Qed.

(** The session length is the least of its three bounds. *)
Lemma Math_min_spec (a b c : Q) :
  Math_min a b c <= a /\ Math_min a b c <= b /\ Math_min a b c <= c /\
  (Math_min a b c == a \/ Math_min a b c == b \/ Math_min a b c == c).
Proof.
  unfold Math_min.
  destruct (Q.min_spec a b) as [[H1 E1]|[H1 E1]],
           (Q.min_spec (Qmin a b) c) as [[H2 E2]|[H2 E2]];
    rewrite E2 in *; try rewrite E1 in *; repeat split; try lra; auto.
  all: rewrite E1 in H2; try lra; auto.
Qed.

Lemma Math_min_pos (a b c : Q) : 0 < a -> 0 < b -> 0 < c -> 0 < Math_min a b c.
Proof.
  intros Ha Hb Hc.
  destruct (Math_min_spec a b c) as (_ & _ & _ & [E|[E|E]]); rewrite E; assumption.
Qed.

Lemma Qmake_100 (n : Z) : n # 100 == inject_Z n * (1 # 100).
Proof. unfold Qeq; simpl. lia. Qed.

Lemma round_half_up_bounds (y : Q) :
  y - (1 # 2) < inject_Z (round_half_up y) /\ inject_Z (round_half_up y) <= y + (1 # 2).
Proof.
  unfold round_half_up. split.
  - pose proof (Qlt_floor (y + (1 # 2))) as H.
    rewrite inject_Z_plus in H. change (inject_Z 1) with 1 in H. lra.
  - apply Qfloor_le.
Qed.

(** Rounding to two decimals moves a non-negative number by at most half a
    hundredth. *)
Lemma toFixed2_error (x : Q) :
  0 <= x -> x - (1 # 200) <= toFixed2 x /\ toFixed2 x <= x + (1 # 200).
Proof.
  intros Hx. unfold toFixed2.
  apply Qle_bool_iff in Hx. rewrite Hx.
  rewrite Qred_correct, Qmake_100.
  pose proof (round_half_up_bounds (x * 100)) as [Hlo Hhi]. lra.
Qed.


Lemma Qnat_S (n : nat) : Qnat (S n) == Qnat n + 1.
Proof.
  unfold Qnat. rewrite Nat2Z.inj_succ, <- Z.add_1_r, inject_Z_plus. reflexivity.
Qed.

Lemma Qnat_le (n m : nat) : (n <= m)%nat -> Qnat n <= Qnat m.
Proof.
  intros H. unfold Qnat. rewrite <- Zle_Qle. lia.
Qed.

Lemma Qnat_mul (n m : nat) : Qnat (n * m) == Qnat n * Qnat m.
Proof.
  unfold Qnat. rewrite Nat2Z.inj_mul, inject_Z_mult. reflexivity.
Qed.

Lemma Qsum_app (l k : list Q) : Qsum (l ++ k) == Qsum l + Qsum k.
Proof.
  induction l as [|x l IH]; simpl; [lra | rewrite IH; lra].
Qed.

(** Rounding each of [l]'s positive numbers moves the sum by at most half
    a hundredth per number. *)
Lemma Qsum_toFixed2 (l : list Q) :
  Forall (fun t => 0 < t) l ->
  Qsum l - (1 # 200) * Qnat (length l) <= Qsum (toFixed2 <$> l) /\
  Qsum (toFixed2 <$> l) <= Qsum l + (1 # 200) * Qnat (length l).
Proof.
  induction 1 as [|x l Hx Hl [IHlo IHhi]].
  - change (Qnat (length [])) with 0. simpl. lra.
  - change (length (x :: l)) with (S (length l)).
    rewrite Qnat_S, fmap_cons. simpl.
    destruct (toFixed2_error x) as [Hlo Hhi]; lra.
Qed.

(** ** The loops: invariant rules, exits and fuel *)

Section Loops.

Variable subjectNames : list string.
Variable hoursPerDay : Q.
Variable totalDays : nat.

(* the definitions of the scheduler at these parameters *)
Local Abbreviation body := (session subjectNames totalDays).
Local Abbreviation loop := (fill_day subjectNames totalDays).
Local Abbreviation fuel_at := (day_fuel subjectNames totalDays).
Local Abbreviation start := (start_of_day hoursPerDay).
Local Abbreviation days := (day_loop subjectNames hoursPerDay totalDays).
Local Abbreviation limit := (valveLimit subjectNames totalDays).

Lemma offer_index (st : LoopState) :
  subjectIndex (offer subjectNames st) = subjectIndex st.
Proof.
  unfold offer. destruct (subjectNames !! _); [|reflexivity].
  destruct (remainingHours st !! _); [|reflexivity].
  destruct (Qpositive _); reflexivity.
Qed.

(** The state [session] leaves is the offer followed by the cursor step,
    whichever [break] is taken. *)
Lemma session_state (st : LoopState) :
  (body st).1 = advance (offer subjectNames st).
Proof.
  unfold session.
  destruct (forallb _ _); [reflexivity|]. destruct (_ <? _)%nat; reflexivity.
Qed.


(** Invariant rule for the [while] loop: what the body preserves while the
    loop condition holds is true of every state the loop goes through. *)
Lemma fill_day_invariant (P : LoopState -> Prop) :
  (forall st, P st -> 0 < remainingDailyHours st -> P (body st).1) ->
  forall fuel st, P st ->
    Forall P (visited (loop fuel st)) /\ P (final (loop fuel st)).
Proof.
  intros Hbody. induction fuel as [|fuel IH]; intros st Hst; simpl.
  - destruct (Qpositive _); simpl; auto.
  - destruct (Qpositive (remainingDailyHours st)) eqn:Hpos; simpl; [|auto].
    apply Qpositive_true in Hpos. specialize (Hbody st Hst Hpos).
    destruct (body st) as [st' [e|]]; simpl in *; [auto|].
    destruct (IH st' Hbody) as [Hv Hf]. auto.
Qed.

(** The state a loop ends in is one of the states it went through. *)
Lemma final_visited (fuel : nat) (st : LoopState) :
  final (loop fuel st) ∈ visited (loop fuel st).
Proof.
  revert st. induction fuel as [|fuel IH]; intros st; simpl.
  - destruct (Qpositive _); simpl; set_solver.
  - destruct (Qpositive _); simpl; [|set_solver].
    destruct (body st) as [st' [e|]]; simpl; [set_solver|].
    specialize (IH st'). set_solver.
Qed.

(** What each way of leaving the loop says about the final state. *)
Lemma fill_day_exit (fuel : nat) (st : LoopState) :
  match exit (loop fuel st) with
  | DailyHoursUsed => remainingDailyHours (final (loop fuel st)) <= 0
  | AllSubjectsExhausted =>
      forallb (exhausted (remainingHours (final (loop fuel st)))) subjectNames = true
  | SafetyValve =>
      (limit < subjectIndex (final (loop fuel st)))%nat /\
      forallb (exhausted (remainingHours (final (loop fuel st)))) subjectNames = false
  | OutOfFuel => True
  end.
Proof.
  revert st. induction fuel as [|fuel IH]; intros st; simpl.
  - destruct (Qpositive _) eqn:Hpos; simpl; [trivial|].
    by apply Qpositive_false.
  - destruct (Qpositive _) eqn:Hpos; simpl; [|by apply Qpositive_false].
    destruct (body st) as [st' o] eqn:Hs.
    unfold session in Hs.
    destruct (forallb _ _) eqn:Hall.
    + injection Hs as <- <-. simpl. exact Hall.
    + destruct (_ <? _)%nat eqn:Hlim; injection Hs as <- <-; simpl.
      * split; [by apply Nat.ltb_lt in Hlim|exact Hall].
      * apply IH.
Qed.

(** The loop never runs out of fuel when given [day_fuel]: every pass moves
    the cursor one step closer to the limit of the second safety check. *)
Lemma fill_day_fuel_enough (fuel : nat) (st : LoopState) :
  (fuel_at (subjectIndex st) <= fuel)%nat ->
  exit (loop fuel st) <> OutOfFuel.
Proof.
  revert st. induction fuel as [|fuel IH]; intros st Hfuel; simpl.
  - unfold day_fuel in Hfuel. lia.
  - destruct (Qpositive _); simpl; [|discriminate].
    destruct (body st) as [st' o] eqn:Hs.
    pose proof (session_state st) as Hst. rewrite Hs in Hst. simpl in Hst.
    unfold session in Hs.
    destruct (forallb _ _).
    + injection Hs as <- <-. discriminate.
    + destruct (_ <? _)%nat eqn:Hlim; injection Hs as <- <-; simpl; [discriminate|].
      apply IH. apply Nat.ltb_ge in Hlim.
      simpl in Hlim. rewrite offer_index in Hlim.
      unfold day_fuel in *. simpl. rewrite offer_index. lia.
Qed.

(** The schedule is the days' plans pushed in order. *)
Lemma day_loop_schedule (todo d : nat) (rem : gmap string Q) (idx : nat)
    (sched : list DayPlan) :
  schedule (days todo d rem idx sched) =
  foldl (fun s r => push_day (dailySchedule (final r)) s) sched
        (dayRuns (days todo d rem idx sched)).
Proof.
  revert d rem idx sched. induction todo as [|todo IH]; intros; simpl; [reflexivity|].
  apply IH.
Qed.

Lemma day_loop_S_schedule (todo d : nat) (rem : gmap string Q) (idx : nat)
    (sched : list DayPlan) :
  schedule (days (S todo) d rem idx sched) =
  let st := final (loop (fuel_at idx) (start d rem idx)) in
  schedule (days todo (S d) (remainingHours st) (subjectIndex st)
              (push_day (dailySchedule st) sched)).
Proof. reflexivity. Qed.

(** Rule for the [for] loop.  [P] holds of the variables at the top of a
    day, [R] of a day's run; [P] is carried to the next day as long as the
    runs satisfy the guard [G]. *)
Lemma day_loop_rule (P : nat -> gmap string Q -> nat -> Prop) (G R : DayRun -> Prop) :
  (forall d rem idx, P d rem idx ->
     let r := loop (fuel_at idx) (start d rem idx) in
     R r /\ (G r -> P (S d) (remainingHours (final r)) (subjectIndex (final r)))) ->
  forall todo d rem idx sched, P d rem idx ->
    let run := days todo d rem idx sched in
    Forall G (dayRuns run) ->
    Forall R (dayRuns run) /\ exists idx', P (d + todo)%nat (remainingAtEnd run) idx'.
Proof.
  intros Hday. induction todo as [|todo IH]; intros d rem idx sched HP; simpl.
  - intros _. split; [constructor|]. exists idx. by rewrite Nat.add_0_r.
  - intros HG. apply Forall_cons in HG as [HG1 HG].
    destruct (Hday d rem idx HP) as [HR Hnext].
    destruct (IH (S d) _ _ (push_day (dailySchedule (final
      (loop (fuel_at idx) (start d rem idx)))) sched) (Hnext HG1) HG)
      as [HRs Hend].
    split; [by constructor|].
    by rewrite <- Nat.add_succ_comm.
Qed.

(** Every day starts its loop with enough fuel. *)
Lemma day_loop_fuel (todo d : nat) (rem : gmap string Q) (idx : nat)
    (sched : list DayPlan) :
  Forall (fun r => exit r <> OutOfFuel) (dayRuns (days todo d rem idx sched)).
Proof.
  apply (day_loop_rule (fun _ _ _ => True) (fun _ => True)); [|trivial|].
  - intros d' rem' idx' _. cbv zeta. split; [|trivial].
    apply fill_day_fuel_enough. reflexivity.
  - apply Forall_forall. trivial.
Qed.

(** *** The offer *)

(** Either nothing is allocated, and then the subject under the cursor has
    no hours left, or the subject under the cursor gets a session. *)
Lemma offer_cases (st : LoopState) :
  (offer subjectNames st = st /\
   forall c r, subjectNames !! (subjectIndex st mod length subjectNames)%nat = Some c ->
               remainingHours st !! c = Some r -> r <= 0) \/
  (exists c r,
     subjectNames !! (subjectIndex st mod length subjectNames)%nat = Some c /\
     remainingHours st !! c = Some r /\ 0 < r /\
     offer subjectNames st = allocate c r st).
Proof.
  unfold offer.
  destruct (subjectNames !! _) as [c|] eqn:Hc; [|left; split; [reflexivity|discriminate]].
  destruct (remainingHours st !! c) as [r|] eqn:Hr.
  - destruct (Qpositive r) eqn:Hp.
    + right. exists c, r. apply Qpositive_true in Hp. auto.
    + left. split; [reflexivity|]. intros c' r' [= <-] Hr'.
      rewrite Hr in Hr'. injection Hr' as <-. by apply Qpositive_false.
  - left. split; [reflexivity|]. intros c' r' [= <-] Hr'. congruence.
Qed.

(** *** Sums of budgets *)

Lemma total_budget_insert_notin (l : list string) (rem : gmap string Q) (c : string) (v : Q) :
  c ∉ l -> total_budget l (<[c := v]> rem) = total_budget l rem.
Proof.
  unfold total_budget. intros Hc. f_equal. apply list_fmap_ext.
  intros i s Hs. unfold budget. rewrite lookup_insert_ne; [reflexivity|].
  intros ->. apply Hc. by eapply list_elem_of_lookup_2.
Qed.

(** Updating the entry of one of the unique names moves the sum by the
    change of that entry. *)
Lemma total_budget_insert (l : list string) (rem : gmap string Q) (c : string) (r v : Q) :
  NoDup l -> c ∈ l -> rem !! c = Some r ->
  total_budget l (<[c := v]> rem) == total_budget l rem - r + v.
Proof.
  intros Hnd Hc Hr. induction Hnd as [|s l Hs Hnd IH].
  - by apply elem_of_nil in Hc.
  - change (total_budget (s :: l) ?m) with (budget m s + total_budget l m).
    destruct (decide (c = s)) as [->|Hne].
    + rewrite total_budget_insert_notin by assumption.
      unfold budget. rewrite lookup_insert_eq, Hr. simpl. lra.
    + apply elem_of_cons in Hc as [?|Hc]; [done|].
      rewrite (IH Hc). unfold budget. rewrite lookup_insert_ne by done. lra.
Qed.

Lemma total_budget_nonneg (l : list string) (rem : gmap string Q) :
  budgets_nonneg l rem -> 0 <= total_budget l rem.
Proof.
  induction l as [|s l IH]; intros Hb.
  - unfold total_budget; simpl. lra.
  - change (total_budget (s :: l) rem) with (budget rem s + total_budget l rem).
    destruct (Hb s) as (r & Hr & Hr0); [left|].
    assert (0 <= total_budget l rem).
    { apply IH. intros t Ht. apply Hb. by right. }
    unfold budget. rewrite Hr. simpl. lra.
Qed.

(** Non-negative budgets that add up to zero are all zero. *)
Lemma budgets_zero_of_total (l : list string) (rem : gmap string Q) :
  budgets_nonneg l rem -> total_budget l rem == 0 -> budgets_zero l rem.
Proof.
  induction l as [|s l IH]; intros Hb Ht t Hin.
  - by apply elem_of_nil in Hin.
  - change (total_budget (s :: l) rem) with (budget rem s + total_budget l rem) in Ht.
    assert (budgets_nonneg l rem) as Hb'.
    { intros u Hu. apply Hb. by right. }
    pose proof (total_budget_nonneg l rem Hb') as Hl.
    destruct (Hb s) as (r & Hr & Hr0); [left|].
    unfold budget in Ht. rewrite Hr in Ht. simpl in Ht.
    apply elem_of_cons in Hin as [->|Hin].
    + exists r. split; [assumption|lra].
    + apply IH; [assumption|lra|assumption].
Qed.

Lemma budgets_zero_nonneg (l : list string) (rem : gmap string Q) :
  budgets_zero l rem -> budgets_nonneg l rem.
Proof.
  intros Hz s Hs. destruct (Hz s Hs) as (r & Hr & E). exists r. split; [assumption|lra].
Qed.

Lemma total_budget_zero (l : list string) (rem : gmap string Q) :
  budgets_zero l rem -> total_budget l rem == 0.
Proof.
  induction l as [|s l IH]; intros Hz.
  - reflexivity.
  - change (total_budget (s :: l) rem) with (budget rem s + total_budget l rem).
    rewrite IH by (intros t Ht; apply Hz; by right).
    destruct (Hz s) as (r & Hr & E); [left|].
    unfold budget. rewrite Hr. simpl. lra.
Qed.

(** All subjects exhausted, as the first safety check tests it. *)
Lemma all_exhausted_spec (rem : gmap string Q) :
  forallb (exhausted rem) subjectNames = true <->
  forall s, s ∈ subjectNames -> exists r, rem !! s = Some r /\ r <= 0.
Proof.
  rewrite forallb_forall. split.
  - intros H s Hs. apply list_elem_of_In in Hs. specialize (H s Hs).
    unfold exhausted in H. destruct (rem !! s) as [r|]; [|discriminate].
    exists r. split; [reflexivity|]. by apply Qle_bool_iff.
  - intros H s Hs. apply list_elem_of_In in Hs. destruct (H s Hs) as (r & Hr & Hr0).
    unfold exhausted. rewrite Hr. by apply Qle_bool_iff.
Qed.

(** *** The budget invariant *)

Lemma budget_inv_session (c : Q) (st : LoopState) :
  NoDup subjectNames ->
  budget_inv subjectNames c st -> 0 < remainingDailyHours st ->
  budget_inv subjectNames c (body st).1.
Proof.
  intros Hnd (Hb & Hd & Hsum) Hpos. rewrite session_state.
  destruct (offer_cases st) as [[-> _]|(cur & r & Hcur & Hr & Hr0 & ->)].
  { repeat split; assumption. }
  assert (cur ∈ subjectNames) as Hin by (by eapply list_elem_of_lookup_2).
  unfold budget_inv; simpl.
  set (take := Math_min (remainingDailyHours st) r 2).
  destruct (Math_min_spec (remainingDailyHours st) r 2) as (Ht1 & Ht2 & _ & _).
  fold take in Ht1, Ht2.
  split; [|split].
  - intros s Hs. destruct (decide (cur = s)) as [<-|Hne].
    + exists (r - take). rewrite lookup_insert_eq. split; [reflexivity|lra].
    + rewrite lookup_insert_ne by done. by apply Hb.
  - lra.
  - right. destruct Hsum as [Hz|Hsum].
    + destruct (Hz cur Hin) as (r' & Hr' & E). rewrite Hr in Hr'.
      injection Hr' as <-. lra.
    + rewrite (total_budget_insert _ _ _ r) by assumption. lra.
Qed.

(** One day: the budgets stay non-negative throughout, and a day that does
    not end in the second safety check either uses its hours up or leaves
    every budget at zero. *)
Lemma budget_day (c : Q) (fuel d : nat) (rem : gmap string Q) (idx : nat) :
  NoDup subjectNames -> 0 <= hoursPerDay ->
  budgets_nonneg subjectNames rem ->
  (budgets_zero subjectNames rem \/ total_budget subjectNames rem == c + hoursPerDay) ->
  let r := loop fuel (start d rem idx) in
  Forall (fun st => budgets_nonneg subjectNames (remainingHours st)) (visited r) /\
  budgets_nonneg subjectNames (remainingHours (final r)) /\
  (exit r = DailyHoursUsed \/ exit r = AllSubjectsExhausted ->
   budgets_zero subjectNames (remainingHours (final r)) \/
   total_budget subjectNames (remainingHours (final r)) == c).
Proof.
  intros Hnd HH Hb Hsum r.
  assert (budget_inv subjectNames c (start d rem idx)) as Hinit.
  { repeat split; simpl; [assumption..|]. destruct Hsum as [?|E]; [by left|right; lra]. }
  destruct (fill_day_invariant (budget_inv subjectNames c)
              (fun st H1 H2 => budget_inv_session c st Hnd H1 H2) fuel _ Hinit)
    as [Hv (Hfb & Hfd & Hfs)].
  fold r in Hv, Hfb, Hfd, Hfs.
  split; [|split; [assumption|]].
  - eapply Forall_impl; [exact Hv|]. by intros st (? & _).
  - pose proof (fill_day_exit fuel (start d rem idx)) as Hex. fold r in Hex.
    intros [He|He]; rewrite He in Hex.
    + destruct Hfs as [?|E]; [by left|right; lra].
    + left. pose proof (proj1 (all_exhausted_spec _) Hex) as Hall. intros s Hs.
      destruct (Hall s Hs) as (x & Hx & Hx0), (Hfb s Hs) as (y & Hy & Hy0).
      rewrite Hx in Hy. injection Hy as <-. exists x. split; [assumption|lra].
Qed.

(** *** The initial budgets *)

Lemma foldl_set_hours_lookup (v : Q) (l : list string) (acc : gmap string Q)
    (s : string) :
  foldl (fun rem subject => set_hours subject v rem) acc l !! s =
  if decide (s ∈ l /\ s <> proto_name) then Some v else acc !! s.
Proof.
  revert acc. induction l as [|x l IH]; intros acc; cbn [foldl].
  - destruct (decide (s ∈ [] /\ s <> proto_name)) as [[H _]|_]; [|reflexivity].
    by apply elem_of_nil in H.
  - rewrite IH.
    destruct (decide (s ∈ l /\ s <> proto_name)) as [[Hl Hp]|Hl],
             (decide (s ∈ x :: l /\ s <> proto_name)) as [[Hxl Hp']|Hxl];
      try reflexivity.
    + exfalso. apply Hxl. split; [by right|assumption].
    + apply elem_of_cons in Hxl as [->|?]; [|exfalso; apply Hl; by split].
      unfold set_hours. destruct (String.eqb_spec x proto_name) as [Hx|Hx]; [done|].
      apply lookup_insert_eq.
    + unfold set_hours. destruct (String.eqb_spec x proto_name) as [Hx|Hx];
        [reflexivity|].
      apply lookup_insert_ne. intros ->.
      destruct (decide (s = proto_name)) as [->|Hs]; [done|].
      apply Hxl. split; [left|assumption].
Qed.

(** A subject with an ordinary name starts with the equal share. *)
Lemma initialHours_lookup (s : string) :
  s ∈ subjectNames -> s <> proto_name ->
  initialHours subjectNames hoursPerDay totalDays !! s =
  Some (hoursPerSubject subjectNames hoursPerDay totalDays).
Proof.
  intros Hs Hp. unfold initialHours. rewrite foldl_set_hours_lookup.
  by rewrite decide_True.
Qed.

(** An entry there is at the start is the equal share of a subject. *)
Lemma initialHours_entry (s : string) (r : Q) :
  initialHours subjectNames hoursPerDay totalDays !! s = Some r ->
  r = hoursPerSubject subjectNames hoursPerDay totalDays /\
  s ∈ subjectNames /\ s <> proto_name.
Proof.
  unfold initialHours. rewrite foldl_set_hours_lookup.
  destruct (decide _) as [[? ?]|_]; [|by rewrite lookup_empty].
  intros [= <-]. auto.
Qed.

Lemma total_budget_const (l : list string) (rem : gmap string Q) (v : Q) :
  (forall s, s ∈ l -> rem !! s = Some v) -> total_budget l rem == Qnat (length l) * v.
Proof.
  induction l as [|x l IH]; intros H.
  - change (Qnat (length [])) with 0. unfold total_budget; simpl. lra.
  - change (total_budget (x :: l) rem) with (budget rem x + total_budget l rem).
    change (length (x :: l)) with (S (length l)).
    rewrite Qnat_S, IH by (intros s Hs; apply H; by right).
    unfold budget. rewrite (H x) by left. simpl. lra.
Qed.

(** The equal split hands out exactly the hours available. *)
Lemma initialHours_total :
  subjectNames <> [] -> proto_name ∉ subjectNames ->
  total_budget subjectNames (initialHours subjectNames hoursPerDay totalDays)
  == hoursPerDay * Qnat totalDays.
Proof.
  intros Hne Hplain. rewrite (total_budget_const _ _ (hoursPerSubject subjectNames hoursPerDay totalDays)).
  2:{ intros s Hs. apply initialHours_lookup; [assumption|]. by intros ->. }
  unfold hoursPerSubject. field.
  destruct subjectNames as [|x l]; [done|].
  change (length (x :: l)) with (S (length l)). rewrite Qnat_S.
  pose proof (Qnat_le 0 (length l) ltac:(lia)) as H0.
  change (Qnat 0) with 0 in H0. lra.
Qed.

(** *** The budgets over the whole plan *)

Lemma budget_plan_nonneg (todo d : nat) (rem : gmap string Q) (idx : nat)
    (sched : list DayPlan) :
  NoDup subjectNames -> 0 <= hoursPerDay ->
  budgets_nonneg subjectNames rem ->
  Forall (fun r => Forall (fun st => budgets_nonneg subjectNames (remainingHours st))
                          (visited r))
         (dayRuns (days todo d rem idx sched)).
Proof.
  intros Hnd HH Hb.
  apply (day_loop_rule (fun _ rem _ => budgets_nonneg subjectNames rem) (fun _ => True));
    [|assumption|apply Forall_forall; trivial].
  intros d' rem' idx' Hb'. cbv zeta.
  destruct (budget_day (total_budget subjectNames rem' - hoursPerDay)
              (fuel_at idx') d' rem' idx' Hnd HH Hb') as (Hv & Hf & _).
  { right. lra. }
  split; [exact Hv|intros _; exact Hf].
Qed.

Lemma budget_plan_zero (todo d : nat) (rem : gmap string Q) (idx : nat)
    (sched : list DayPlan) :
  NoDup subjectNames -> 0 <= hoursPerDay ->
  budgets_nonneg subjectNames rem ->
  total_budget subjectNames rem == hoursPerDay * Qnat todo ->
  Forall (fun r => exit r <> SafetyValve) (dayRuns (days todo d rem idx sched)) ->
  budgets_zero subjectNames (remainingAtEnd (days todo d rem idx sched)).
Proof.
  intros Hnd HH Hb Hsum Hvalve.
  set (P := fun (d' : nat) (rem' : gmap string Q) (_ : nat) =>
    budgets_nonneg subjectNames rem' /\
    (budgets_zero subjectNames rem' \/
     total_budget subjectNames rem' == hoursPerDay * (Qnat (d + todo) - Qnat d'))).
  destruct (day_loop_rule P
              (fun r => exit r = DailyHoursUsed \/ exit r = AllSubjectsExhausted)
              (fun _ => True)) with (todo := todo) (d := d) (rem := rem) (idx := idx)
              (sched := sched) as [_ [idx' [Hb' Hend]]].
  - intros d' rem' idx' [Hb' Hs']. cbv zeta. split; [trivial|]. intros HG.
    destruct (budget_day (hoursPerDay * (Qnat (d + todo) - Qnat (S d')))
                (fuel_at idx') d' rem' idx' Hnd HH Hb') as (_ & Hf & Hc).
    { destruct Hs' as [?|E]; [by left|right]. rewrite E, Qnat_S. lra. }
    split; [exact Hf|exact (Hc HG)].
  - split; [assumption|right].
    rewrite Hsum. unfold Qnat. rewrite Nat2Z.inj_add, inject_Z_plus. lra.
  - pose proof (day_loop_fuel todo d rem idx sched) as Hfuel.
    rewrite Forall_forall in *. intros r Hr.
    specialize (Hvalve r Hr). specialize (Hfuel r Hr).
    destruct (exit r); auto; done.
  - destruct Hend as [?|E]; [assumption|].
    apply budgets_zero_of_total; [assumption|]. rewrite E. lra.
Qed.

Lemma day_loop_runs_length (todo d : nat) (rem : gmap string Q) (idx : nat)
    (sched : list DayPlan) :
  length (dayRuns (days todo d rem idx sched)) = todo.
Proof.
  revert d rem idx sched. induction todo as [|todo IH]; intros; simpl; [reflexivity|].
  by rewrite IH.
Qed.

(** *** Counting turns *)

Lemma turns_hit (n p idx : nat) :
  (p < n)%nat -> (idx mod n)%nat = p -> turns n p (S idx) = S (turns n p idx).
Proof.
  intros Hp Hm. unfold turns.
  pose proof (Nat.div_mod_eq idx n) as E. rewrite Hm in E.
  rewrite <- (Nat.div_unique (idx + (n - 1 - p)) n (idx / n) (n - 1)) by lia.
  symmetry. apply (Nat.div_unique _ _ _ 0%nat); lia.
Qed.

Lemma turns_miss (n p idx : nat) :
  (p < n)%nat -> (idx mod n)%nat <> p -> turns n p (S idx) = turns n p idx.
Proof.
  intros Hp Hm. unfold turns.
  pose proof (Nat.div_mod_eq idx n) as E.
  pose proof (Nat.mod_upper_bound idx n ltac:(lia)) as Hlt.
  destruct (decide (idx mod n < p)%nat) as [Hlo|Hhi].
  - transitivity (idx / n)%nat.
    + symmetry. apply (Nat.div_unique _ _ _ (S (idx mod n) + (n - 1 - p))%nat); lia.
    + apply (Nat.div_unique _ _ _ (idx mod n + (n - 1 - p))%nat); lia.
  - transitivity (S (idx / n))%nat.
    + symmetry. apply (Nat.div_unique _ _ _ (idx mod n - p)%nat); lia.
    + apply (Nat.div_unique _ _ _ (idx mod n - p - 1)%nat); lia.
Qed.

Lemma turns_mono (n p idx idx' : nat) :
  (idx <= idx')%nat -> (turns n p idx <= turns n p idx')%nat.
Proof.
  intros H. unfold turns. apply Nat.Div0.div_le_mono. lia.
Qed.

(** After [k] full rotations every position has had [k] turns. *)
Lemma turns_full (n p k : nat) : (p < n)%nat -> turns n p (n * k) = k.
Proof.
  intros Hp. unfold turns.
  symmetry. apply (Nat.div_unique _ _ _ (n - 1 - p)%nat); [lia|]. lia.
Qed.

(** *** The turn-count invariant and the second safety check *)

Lemma turn_inv_weaken (b : Q) (k idx : nat) (rem : gmap string Q) :
  turn_inv subjectNames b k idx rem -> turn_inv subjectNames b (S k) idx rem.
Proof.
  intros H p s r Hp Hs Hr. specialize (H p s r Hp Hs Hr). rewrite Qnat_S. lra.
Qed.

Lemma valve_inv_session (b : Q) (k : nat) (st : LoopState) :
  NoDup subjectNames ->
  valve_inv subjectNames b k st -> 0 < remainingDailyHours st ->
  valve_inv subjectNames b k (body st).1.
Proof.
  intros Hnd [Hk _] Hpos. specialize (Hk Hpos). rewrite session_state.
  destruct (offer_cases st) as [[-> Hskip]|(cur & r0 & Hcur & Hr0 & Hr0pos & ->)].
  - (* no session: the subject under the cursor has nothing left *)
    assert (turn_inv subjectNames b k (S (subjectIndex st)) (remainingHours st)) as H.
    { intros p s r Hp Hs Hr.
      pose proof (lookup_lt_Some _ _ _ Hp) as Hlt.
      destruct (decide ((subjectIndex st mod length subjectNames)%nat = p)) as [E|E].
      - rewrite E in Hskip. specialize (Hskip s r Hp Hs). lra.
      - rewrite turns_miss by assumption. exact (Hk p s r Hp Hs Hr). }
    split; simpl; [intros _; exact H|by apply turn_inv_weaken].
  - (* a session for [cur] *)
    unfold valve_inv, turn_inv. simpl.
    set (take := Math_min (remainingDailyHours st) r0 2).
    destruct (Math_min_spec (remainingDailyHours st) r0 2) as (Ht1 & Ht2 & Ht3 & Hmin).
    pose proof (Math_min_pos (remainingDailyHours st) r0 2 Hpos Hr0pos ltac:(lra)) as Ht0.
    fold take in Ht0, Ht1, Ht2, Ht3, Hmin.
    assert (forall p s r, subjectNames !! p = Some s ->
              <[cur := r0 - take]> (remainingHours st) !! s = Some r -> 0 < r ->
              (s <> cur /\ remainingHours st !! s = Some r /\
               turns (length subjectNames) p (S (subjectIndex st)) =
               turns (length subjectNames) p (subjectIndex st)) \/
              (s = cur /\ r = r0 - take /\
               turns (length subjectNames) p (S (subjectIndex st)) =
               S (turns (length subjectNames) p (subjectIndex st)))) as Hcase.
    { intros p s r Hp Hs Hr. pose proof (lookup_lt_Some _ _ _ Hp) as Hlt.
      destruct (decide (s = cur)) as [->|Hne].
      - right. rewrite lookup_insert_eq in Hs. injection Hs as <-.
        split; [reflexivity|split; [reflexivity|]].
        apply turns_hit; [assumption|].
        by apply (NoDup_lookup _ _ _ _ Hnd Hcur Hp).
      - left. rewrite lookup_insert_ne in Hs by done.
        split; [assumption|split; [assumption|]].
        apply turns_miss; [assumption|]. intros E. rewrite E in Hcur. congruence. }
    split.
    + intros Hleft p s r Hp Hs Hr.
      destruct (Hcase p s r Hp Hs Hr) as [(_ & Hs' & ->)|(-> & -> & ->)].
      * exact (Hk p s r Hp Hs' Hr).
      * specialize (Hk p cur r0 Hp Hr0 Hr0pos). rewrite Qnat_S.
        destruct Hmin as [E|[E|E]]; lra.
    + intros p s r Hp Hs Hr.
      destruct (Hcase p s r Hp Hs Hr) as [(_ & Hs' & ->)|(-> & -> & ->)].
      * exact (turn_inv_weaken _ _ _ _ Hk p s r Hp Hs' Hr).
      * specialize (Hk p cur r0 Hp Hr0 Hr0pos). rewrite !Qnat_S. lra.
Qed.

Lemma forallb_false_witness {A : Type} (f : A -> bool) (l : list A) :
  forallb f l = false -> exists x, x ∈ l /\ f x = false.
Proof.
  induction l as [|x l IH]; simpl; [discriminate|].
  destruct (f x) eqn:Hx; simpl.
  - intros H. destruct (IH H) as (y & Hy & Hfy). exists y. split; [by right|assumption].
  - intros _. exists x. split; [left|assumption].
Qed.

(** With two or more subjects the equal share is at most twelve hours a
    day. *)
Lemma hoursPerSubject_bound :
  (2 <= length subjectNames)%nat -> 0 <= hoursPerDay -> hoursPerDay <= 24 ->
  hoursPerSubject subjectNames hoursPerDay totalDays <= 12 * Qnat totalDays.
Proof.
  intros Hn H0 H24. unfold hoursPerSubject.
  pose proof (Qnat_le 2 _ Hn) as Hn2. change (Qnat 2) with 2 in Hn2.
  pose proof (Qnat_le 0 totalDays ltac:(lia)) as Hd. change (Qnat 0) with 0 in Hd.
  apply Qle_shift_div_r; [lra|]. nra.
Qed.

(** With two or more subjects the cursor cannot pass the limit of the
    second safety check while a subject still has hours left: such a
    subject would have had ten turns per day, at least nine of them of two
    hours, which is more than its share. *)
Lemma valve_inv_limit (k : nat) (st : LoopState) :
  (2 <= length subjectNames)%nat -> 0 <= hoursPerDay -> hoursPerDay <= 24 ->
  (S k <= totalDays)%nat ->
  budgets_nonneg subjectNames (remainingHours st) ->
  valve_inv subjectNames (hoursPerSubject subjectNames hoursPerDay totalDays) k st ->
  (limit < subjectIndex st)%nat ->
  forallb (exhausted (remainingHours st)) subjectNames = true.
Proof.
  intros Hn H0 H24 Hk Hb [_ Hinv] Hlim.
  destruct (forallb _ _) eqn:Hall; [reflexivity|exfalso].
  destruct (forallb_false_witness _ _ Hall) as (s & Hs & Hex).
  destruct (Hb s Hs) as (r & Hr & Hr0).
  unfold exhausted in Hex. rewrite Hr in Hex.
  assert (0 < r) as Hrpos.
  { apply Qnot_le_lt. intros Hle. apply Qle_bool_iff in Hle. congruence. }
  apply list_elem_of_lookup_1 in Hs as [p Hp].
  pose proof (lookup_lt_Some _ _ _ Hp) as Hlt.
  specialize (Hinv p s r Hp Hr Hrpos).
  pose proof (hoursPerSubject_bound Hn H0 H24) as Hshare.
  assert (Qnat (10 * totalDays) <= Qnat (turns (length subjectNames) p (subjectIndex st)))
    as Hturns.
  { apply Qnat_le.
    rewrite <- (turns_full (length subjectNames) p (10 * totalDays)) at 1 by assumption.
    apply turns_mono. unfold valveLimit in Hlim. lia. }
  rewrite Qnat_mul in Hturns. change (Qnat 10) with 10 in Hturns.
  pose proof (Qnat_le _ _ Hk) as HkD.
  pose proof (Qnat_le 1 totalDays ltac:(lia)) as HD. change (Qnat 1) with 1 in HD.
  lra.
Qed.

(** *** What one day leaves behind *)

Lemma session_day (st : LoopState) :
  day (dailySchedule (body st).1) = day (dailySchedule st).
Proof.
  rewrite session_state.
  destruct (offer_cases st) as [[-> _]|(c & r & _ & _ & _ & ->)]; reflexivity.
Qed.

(** A pass that leaves the day's list empty has changed nothing but the
    cursor. *)
Lemma session_idle (st : LoopState) :
  subjects (dailySchedule (body st).1) = [] ->
  remainingHours (body st).1 = remainingHours st /\
  remainingDailyHours (body st).1 = remainingDailyHours st /\
  subjects (dailySchedule st) = [].
Proof.
  rewrite session_state.
  destruct (offer_cases st) as [[-> _]|(c & r & _ & _ & _ & ->)]; simpl; [auto|].
  intros H. by apply app_nil in H as [_ ?].
Qed.

Lemma session_keeps_sessions (st : LoopState) :
  subjects (dailySchedule st) <> [] -> subjects (dailySchedule (body st).1) <> [].
Proof.
  intros H E. by apply session_idle in E as (_ & _ & ?).
Qed.

(** What holds after the first pass and is preserved holds at the end. *)
Lemma fill_day_after_first (P : LoopState -> Prop) (fuel : nat) (st : LoopState) :
  (forall st, P st -> 0 < remainingDailyHours st -> P (body st).1) ->
  0 < remainingDailyHours st -> P (body st).1 ->
  P (final (loop (S fuel) st)).
Proof.
  intros Hbody Hpos H1. simpl.
  apply Qpositive_true in Hpos. rewrite Hpos.
  destruct (body st) as [st' [e|]]; simpl in *; [assumption|].
  by apply fill_day_invariant.
Qed.



(** The day's plan carries the day's number. *)
Lemma fill_day_day (fuel d : nat) (rem : gmap string Q) (idx : nat) :
  day (dailySchedule (final (loop fuel (start d rem idx)))) = d.
Proof.
  apply (fill_day_invariant (fun st => day (dailySchedule st) = d)); [|reflexivity].
  intros st <- _. apply session_day.
Qed.

(** A single subject that is not exhausted gets a session on the first
    pass of the day. *)
Lemma day_one_subject (d : nat) (rem : gmap string Q) (idx : nat) :
  length subjectNames = 1%nat -> 0 < hoursPerDay ->
  budgets_nonneg subjectNames rem ->
  forallb (exhausted rem) subjectNames = false ->
  subjects (dailySchedule (final (loop (fuel_at idx) (start d rem idx)))) <> [].
Proof.
  intros Hn HH Hb Hnot.
  apply (fill_day_after_first (fun st => subjects (dailySchedule st) <> []));
    [intros st H _; by apply session_keeps_sessions|exact HH|].
  rewrite session_state.
  destruct (offer_cases (start d rem idx)) as [[_ Hskip]|(c & r & _ & _ & _ & ->)].
  - exfalso. simpl in Hskip. rewrite Hn, Nat.mod_1_r in Hskip.
    assert (forallb (exhausted rem) subjectNames = true) as Hall; [|congruence].
    destruct subjectNames as [|s [|]]; try discriminate. simpl.
    destruct (Hb s) as (r & Hr & _); [left|].
    unfold exhausted. rewrite Hr, andb_true_r. apply Qle_bool_iff.
    by apply (Hskip s r).
  - simpl. discriminate.
Qed.

(** One day with two or more subjects: the second safety check does not
    fire, a subject with hours left gets a session, and the invariants
    pass to the next day. *)
Lemma day_two_subjects (k : nat) (rem : gmap string Q) (idx : nat) :
  let b := hoursPerSubject subjectNames hoursPerDay totalDays in
  let r := loop (fuel_at idx) (start (S k) rem idx) in
  (2 <= length subjectNames)%nat -> NoDup subjectNames ->
  0 < hoursPerDay -> hoursPerDay <= 24 -> (S k <= totalDays)%nat ->
  budgets_nonneg subjectNames rem ->
  turn_inv subjectNames b k idx rem ->
  exit r <> SafetyValve /\
  budgets_nonneg subjectNames (remainingHours (final r)) /\
  turn_inv subjectNames b (S k) (subjectIndex (final r)) (remainingHours (final r)) /\
  (forallb (exhausted rem) subjectNames = false ->
   subjects (dailySchedule (final r)) <> []).
Proof.
  intros b r Hn Hnd HH H24 Hk Hb Hturn.
  set (c := total_budget subjectNames rem - hoursPerDay).
  set (P := fun st : LoopState =>
    budget_inv subjectNames c st /\ valve_inv subjectNames b k st /\
    (subjects (dailySchedule st) = [] ->
     remainingHours st = rem /\ remainingDailyHours st = hoursPerDay)).
  assert (P (final r)) as (Hbud & Hvalve & Hidle).
  { apply (fill_day_invariant P).
    - intros st (H1 & H2 & H3) Hpos. split; [|split].
      + by apply budget_inv_session.
      + by apply valve_inv_session.
      + intros E. destruct (session_idle st E) as (-> & -> & E'). by apply H3.
    - split; [|split].
      + repeat split; simpl; [assumption|lra|right; unfold c; lra].
      + split; simpl; [intros _; assumption|by apply turn_inv_weaken].
      + auto. }
  destruct Hbud as (Hb' & _ & _).
  assert (exit r <> SafetyValve) as Hexit.
  { intros E. pose proof (fill_day_exit (fuel_at idx) (start (S k) rem idx)) as Hex.
    fold r in Hex. rewrite E in Hex. destruct Hex as [Hlim Hall].
    rewrite (valve_inv_limit k (final r)) in Hall; try assumption; [discriminate|lra]. }
  split; [exact Hexit|]. split; [exact Hb'|]. split; [exact (proj2 Hvalve)|].
  intros Hnot E. destruct (Hidle E) as [Hrem Hday].
  pose proof (fill_day_exit (fuel_at idx) (start (S k) rem idx)) as Hex.
  pose proof (fill_day_fuel_enough (fuel_at idx) (start (S k) rem idx) ltac:(reflexivity))
    as Hfuel.
  fold r in Hex, Hfuel.
  destruct (exit r); [|congruence|done|done].
  rewrite Hday in Hex. lra.
Qed.

(** *** The days of the plan *)

Lemma day_loop_S_runs (todo d : nat) (rem : gmap string Q) (idx : nat)
    (sched : list DayPlan) :
  dayRuns (days (S todo) d rem idx sched) =
  let r := loop (fuel_at idx) (start d rem idx) in
  r :: dayRuns (days todo (S d) (remainingHours (final r)) (subjectIndex (final r))
                  (push_day (dailySchedule (final r)) sched)).
Proof. reflexivity. Qed.

Lemma hoursPerSubject_nonneg :
  0 <= hoursPerDay -> 0 <= hoursPerSubject subjectNames hoursPerDay totalDays.
Proof.
  intros HH. unfold hoursPerSubject.
  pose proof (Qnat_le 0 totalDays ltac:(lia)) as Hd. change (Qnat 0) with 0 in Hd.
  pose proof (Qnat_le 0 (length subjectNames) ltac:(lia)) as Hn.
  change (Qnat 0) with 0 in Hn.
  destruct (Qeq_dec (Qnat (length subjectNames)) 0) as [E|E].
  - unfold Qdiv. rewrite E. change (/ 0) with 0. lra.
  - apply Qle_shift_div_l; [lra|nra].
Qed.

Lemma initialHours_nonneg :
  subjectNames <> [] -> proto_name ∉ subjectNames -> 0 <= hoursPerDay ->
  budgets_nonneg subjectNames (initialHours subjectNames hoursPerDay totalDays).
Proof.
  intros Hne Hplain HH s Hs. eexists.
  split; [apply initialHours_lookup; [assumption|by intros ->]|].
  unfold hoursPerSubject.
  pose proof (Qnat_le 0 totalDays ltac:(lia)) as Hd. change (Qnat 0) with 0 in Hd.
  apply Qle_shift_div_l; [|nra].
  destruct subjectNames as [|x l]; [done|].
  change (length (x :: l)) with (S (length l)). rewrite Qnat_S.
  pose proof (Qnat_le 0 (length l) ltac:(lia)) as H0. change (Qnat 0) with 0 in H0. lra.
Qed.

Lemma initialHours_turns :
  turn_inv subjectNames (hoursPerSubject subjectNames hoursPerDay totalDays) 0 0
           (initialHours subjectNames hoursPerDay totalDays).
Proof.
  intros p s r Hp Hs Hr.
  pose proof (lookup_lt_Some _ _ _ Hp) as Hlt.
  apply initialHours_entry in Hs as (-> & _ & _).
  assert (turns (length subjectNames) p 0 = 0%nat) as ->.
  { unfold turns. apply Nat.div_small. lia. }
  change (Qnat 0) with 0. lra.
Qed.

(** With two or more subjects no day of the plan ends in the second safety
    check. *)
Lemma day_loop_no_valve (todo k : nat) (rem : gmap string Q) (idx : nat)
    (sched : list DayPlan) :
  (2 <= length subjectNames)%nat -> NoDup subjectNames ->
  0 < hoursPerDay -> hoursPerDay <= 24 -> (k + todo = totalDays)%nat ->
  budgets_nonneg subjectNames rem ->
  turn_inv subjectNames (hoursPerSubject subjectNames hoursPerDay totalDays) k idx rem ->
  Forall (fun r => exit r <> SafetyValve) (dayRuns (days todo (S k) rem idx sched)).
Proof.
  intros Hn Hnd HH H24. revert k rem idx sched.
  induction todo as [|todo IH]; intros k rem idx sched Hk Hb Hturn.
  - constructor.
  - rewrite day_loop_S_runs. cbv zeta.
    destruct (day_two_subjects k rem idx Hn Hnd HH H24 ltac:(lia) Hb Hturn)
      as (Hexit & Hb' & Hturn' & _).
    constructor; [exact Hexit|]. apply IH; [lia|assumption..].
Qed.

(** *** Days without sessions *)

Lemma idle_spec (rem : gmap string Q) :
  idle subjectNames rem = true <->
  forall s r, s ∈ subjectNames -> rem !! s = Some r -> r <= 0.
Proof.
  unfold idle. rewrite forallb_forall. split.
  - intros H s r Hs Hr. apply list_elem_of_In in Hs. specialize (H s Hs).
    unfold has_hours in H. rewrite Hr in H. apply negb_true_iff in H.
    by apply Qpositive_false.
  - intros H s Hs. apply list_elem_of_In in Hs. unfold has_hours.
    destruct (rem !! s) as [r|] eqn:Hr; [|reflexivity].
    apply negb_true_iff, Qpositive_false. by apply (H s).
Qed.

Lemma exhausted_idle (rem : gmap string Q) :
  forallb (exhausted rem) subjectNames = true -> idle subjectNames rem = true.
Proof.
  intros Hall. apply idle_spec. intros s r Hs Hr.
  destruct (proj1 (all_exhausted_spec rem) Hall s Hs) as (r' & Hr' & Hle).
  rewrite Hr in Hr'. by injection Hr' as <-.
Qed.

(** When no subject can be given a session a day changes no budget and
    records nothing, however its loop is left. *)
Lemma fill_day_idle (fuel d : nat) (rem : gmap string Q) (idx : nat) :
  idle subjectNames rem = true ->
  remainingHours (final (loop fuel (start d rem idx))) = rem /\
  subjects (dailySchedule (final (loop fuel (start d rem idx)))) = [].
Proof.
  intros Hidle.
  apply (fill_day_invariant (fun st =>
    remainingHours st = rem /\ subjects (dailySchedule st) = [])); [|by split].
  intros st [Hrem Hsub] _. rewrite session_state.
  destruct (offer_cases st) as [[-> _]|(c & r & Hc & Hr & Hr0 & _)]; [by split|].
  exfalso. rewrite Hrem in Hr. apply list_elem_of_lookup_2 in Hc.
  pose proof (proj1 (idle_spec rem) Hidle c r Hc Hr). lra.
Qed.

Lemma day_loop_idle (todo d : nat) (rem : gmap string Q) (idx : nat)
    (sched : list DayPlan) :
  idle subjectNames rem = true ->
  schedule (days todo d rem idx sched) = sched.
Proof.
  intros Hidle. revert d idx. induction todo as [|todo IH]; intros d idx.
  - reflexivity.
  - rewrite day_loop_S_schedule. cbv zeta.
    destruct (fill_day_idle (fuel_at idx) d rem idx Hidle) as [-> Hnil].
    unfold push_day. rewrite Hnil. apply IH.
Qed.

(** With two or more subjects, once the cursor has passed the limit of the
    second safety check no subject can be given a session. *)
Lemma valve_inv_idle (k : nat) (st : LoopState) :
  (2 <= length subjectNames)%nat -> 0 <= hoursPerDay -> hoursPerDay <= 24 ->
  (S k <= totalDays)%nat ->
  valve_inv subjectNames (hoursPerSubject subjectNames hoursPerDay totalDays) k st ->
  (limit < subjectIndex st)%nat ->
  idle subjectNames (remainingHours st) = true.
Proof.
  intros Hn H0 H24 Hk [_ Hinv] Hlim. apply idle_spec. intros s r Hs Hr.
  apply Qnot_lt_le. intros Hrpos.
  apply list_elem_of_lookup_1 in Hs as [p Hp].
  pose proof (lookup_lt_Some _ _ _ Hp) as Hlt.
  specialize (Hinv p s r Hp Hr Hrpos).
  pose proof (hoursPerSubject_bound Hn H0 H24) as Hshare.
  assert (Qnat (10 * totalDays) <= Qnat (turns (length subjectNames) p (subjectIndex st)))
    as Hturns.
  { apply Qnat_le.
    rewrite <- (turns_full (length subjectNames) p (10 * totalDays)) at 1 by assumption.
    apply turns_mono. unfold valveLimit in Hlim. lia. }
  rewrite Qnat_mul in Hturns. change (Qnat 10) with 10 in Hturns.
  pose proof (Qnat_le _ _ Hk) as HkD.
  pose proof (Qnat_le 1 totalDays ltac:(lia)) as HD. change (Qnat 1) with 1 in HD.
  lra.
Qed.

(** One day with two or more subjects, whatever their names: a subject
    that can be given a session is given one, and the turn count passes to
    the next day. *)
Lemma day_progress_two (k : nat) (rem : gmap string Q) (idx : nat) :
  let b := hoursPerSubject subjectNames hoursPerDay totalDays in
  let r := loop (fuel_at idx) (start (S k) rem idx) in
  (2 <= length subjectNames)%nat -> NoDup subjectNames ->
  0 < hoursPerDay -> hoursPerDay <= 24 -> (S k <= totalDays)%nat ->
  turn_inv subjectNames b k idx rem ->
  turn_inv subjectNames b (S k) (subjectIndex (final r)) (remainingHours (final r)) /\
  (idle subjectNames rem = false -> subjects (dailySchedule (final r)) <> []).
Proof.
  intros b r Hn Hnd HH H24 Hk Hturn.
  set (P := fun st : LoopState =>
    valve_inv subjectNames b k st /\
    (subjects (dailySchedule st) = [] ->
     remainingHours st = rem /\ remainingDailyHours st = hoursPerDay)).
  assert (P (final r)) as (Hvalve & Hidle).
  { apply (fill_day_invariant P).
    - intros st (H2 & H3) Hpos. split.
      + by apply valve_inv_session.
      + intros E. destruct (session_idle st E) as (-> & -> & E'). by apply H3.
    - split; [|auto].
      split; simpl; [intros _; assumption|by apply turn_inv_weaken]. }
  split; [exact (proj2 Hvalve)|].
  intros Hbusy E. destruct (Hidle E) as [Hrem Hday].
  pose proof (fill_day_exit (fuel_at idx) (start (S k) rem idx)) as Hex.
  pose proof (fill_day_fuel_enough (fuel_at idx) (start (S k) rem idx) ltac:(reflexivity))
    as Hfuel.
  fold r in Hex, Hfuel.
  destruct (exit r); [| | |done].
  - rewrite Hday in Hex. lra.
  - rewrite Hrem in Hex. apply exhausted_idle in Hex. congruence.
  - destruct Hex as [Hlim _].
    rewrite <- Hrem, (valve_inv_idle k (final r)) in Hbusy; try assumption;
      [discriminate|lra].
Qed.

(** A single subject that can be given a session gets one on the first
    pass of the day. *)
Lemma day_progress_one (d : nat) (rem : gmap string Q) (idx : nat) :
  length subjectNames = 1%nat -> 0 < hoursPerDay ->
  idle subjectNames rem = false ->
  subjects (dailySchedule (final (loop (fuel_at idx) (start d rem idx)))) <> [].
Proof.
  intros Hn HH Hbusy.
  apply (fill_day_after_first (fun st => subjects (dailySchedule st) <> []));
    [intros st H _; by apply session_keeps_sessions|exact HH|].
  rewrite session_state.
  destruct (offer_cases (start d rem idx)) as [[_ Hskip]|(c & r & _ & _ & _ & ->)].
  - exfalso. simpl in Hskip. rewrite Hn, Nat.mod_1_r in Hskip.
    assert (idle subjectNames rem = true) as Hidle; [|congruence].
    apply idle_spec. intros s r Hs Hr.
    destruct subjectNames as [|s0 [|]]; try discriminate.
    apply list_elem_of_singleton in Hs as ->. by apply (Hskip s0 r).
  - simpl. discriminate.
Qed.

(** The days pushed are consecutive: once a day is dropped, no subject can
    be given a session and all later days are dropped too. *)
Lemma day_loop_prefix (todo k : nat) (rem : gmap string Q) (idx : nat)
    (sched : list DayPlan) :
  NoDup subjectNames ->
  0 < hoursPerDay -> hoursPerDay <= 24 -> (k + todo = totalDays)%nat ->
  ((2 <= length subjectNames)%nat ->
   turn_inv subjectNames (hoursPerSubject subjectNames hoursPerDay totalDays) k idx rem) ->
  exists new,
    schedule (days todo (S k) rem idx sched) = sched ++ new /\
    day <$> new = seq (S k) (length new) /\
    (length new <= todo)%nat /\
    Forall (fun dp => subjects dp <> []) new.
Proof.
  intros Hnd HH H24. revert k rem idx sched.
  induction todo as [|todo IH]; intros k rem idx sched Hk Hturn.
  - exists []. simpl. rewrite app_nil_r. auto.
  - destruct (idle subjectNames rem) eqn:Hidle.
    { exists []. rewrite day_loop_idle by assumption. rewrite app_nil_r. simpl.
      repeat split; [lia|constructor]. }
    rewrite day_loop_S_schedule. cbv zeta.
    set (r := loop (fuel_at idx) (start (S k) rem idx)).
    assert (subjects (dailySchedule (final r)) <> [] /\
            ((2 <= length subjectNames)%nat ->
             turn_inv subjectNames (hoursPerSubject subjectNames hoursPerDay totalDays)
                      (S k) (subjectIndex (final r)) (remainingHours (final r))))
      as [Hsome Hturn'].
    { destruct (decide (2 <= length subjectNames)%nat) as [Hn|Hn].
      - destruct (day_progress_two k rem idx Hn Hnd HH H24 ltac:(lia) (Hturn Hn))
          as (Ht & Hs). split; [by apply Hs|intros _; exact Ht].
      - split; [|lia]. apply day_progress_one; try assumption.
        destruct subjectNames as [|? [|]]; simpl in *; [discriminate|reflexivity|lia]. }
    destruct (IH (S k) (remainingHours (final r)) (subjectIndex (final r))
                (push_day (dailySchedule (final r)) sched) ltac:(lia) Hturn')
      as (new & Hsched & Hdays & Hlen & Hfull).
    unfold push_day in Hsched |- *.
    destruct (subjects (dailySchedule (final r))) as [|a l] eqn:Hsub; [done|].
    eexists (_ :: new). split; [|split; [|split]].
    + rewrite Hsched, <- app_assoc. reflexivity.
    + rewrite fmap_cons, Hdays. simpl. unfold r. rewrite fill_day_day. reflexivity.
    + simpl. lia.
    + constructor; [simpl; done|assumption].
Qed.

(** *** The day's record and its rounding *)

Lemma round_inv_session (st : LoopState) :
  round_inv hoursPerDay st -> 0 < remainingDailyHours st ->
  round_inv hoursPerDay (body st).1.
Proof.
  intros (Hrec & Htot & Hpos & Hsum & Hleft) Hday. rewrite session_state.
  destruct (offer_cases st) as [[-> _]|(c & r & _ & _ & Hr & ->)].
  { repeat split; assumption. }
  unfold round_inv; simpl.
  set (take := Math_min (remainingDailyHours st) r 2).
  destruct (Math_min_spec (remainingDailyHours st) r 2) as (Ht1 & _ & _ & _).
  pose proof (Math_min_pos (remainingDailyHours st) r 2 Hday Hr ltac:(lra)) as Ht0.
  fold take in Ht0, Ht1.
  rewrite !fmap_app, Hrec, !Qsum_app. simpl.
  repeat split.
  - lra.
  - apply Forall_app. split; [assumption|]. by constructor.
  - lra.
  - right. lra.
Qed.

Lemma day_loop_rounding (todo d : nat) (rem : gmap string Q) (idx : nat)
    (sched : list DayPlan) :
  Forall (fun r => round_inv hoursPerDay (final r)) (dayRuns (days todo d rem idx sched)).
Proof.
  apply (day_loop_rule (fun _ _ _ => True) (fun _ => True)); [|trivial|].
  - intros d' rem' idx' _. cbv zeta. split; [|trivial].
    apply (fill_day_invariant (round_inv hoursPerDay)); [apply round_inv_session|].
    unfold round_inv; simpl.
    split; [reflexivity|]. split; [lra|]. split; [constructor|]. split; [lra|by left].
  - apply Forall_forall. trivial.
Qed.

(** Every plan of the schedule was pushed for one of the days' runs. *)
Lemma schedule_from_runs (runs : list DayRun) (sched : list DayPlan) (dp : DayPlan) :
  dp ∈ foldl (fun s r => push_day (dailySchedule (final r)) s) sched runs ->
  dp ∈ sched \/
  exists r, r ∈ runs /\ subjects (dailySchedule (final r)) <> [] /\
            dp = pushed (dailySchedule (final r)).
Proof.
  revert sched. induction runs as [|r runs IH]; intros sched; simpl; [auto|].
  intros H. destruct (IH _ H) as [Hin|(r' & Hr' & Hne & ->)].
  - unfold push_day in Hin.
    destruct (subjects (dailySchedule (final r))) as [|a l] eqn:Hsub; [auto|].
    apply elem_of_app in Hin as [?|Hin]; [auto|]. right.
    apply list_elem_of_singleton in Hin as ->.
    exists r. split; [left|]. rewrite Hsub. split; [done|].
    unfold pushed. by rewrite Hsub.
  - right. exists r'. split; [by right|auto].
Qed.

(** *** Accounts of the recorded hours *)

Lemma sessions_of_app (s : string) (l k : list Allocation) :
  sessions_of s (l ++ k) = sessions_of s l ++ sessions_of s k.
Proof. apply List.filter_app. Qed.

Lemma Qnat_length_snoc {A : Type} (l : list A) (x : A) :
  Qnat (length (l ++ [x])) == Qnat (length l) + 1.
Proof.
  rewrite length_app, Nat.add_1_r. apply Qnat_S.
Qed.



Lemma allocations_push_day (ds : DayPlan) (sched : list DayPlan) :
  allocations (push_day ds sched) = allocations sched ++ subjects ds.
Proof.
  unfold push_day, allocations.
  destruct (subjects ds) as [|x l] eqn:E; [by rewrite app_nil_r|].
  rewrite bind_app. simpl. by rewrite app_nil_r.
Qed.

(** The accounts hold over the whole plan, whichever way the loops are
    left. *)
Lemma day_loop_accounts (P : gmap string Q -> list Allocation -> Prop) :
  (forall pre st, P (remainingHours st) (pre ++ subjects (dailySchedule st)) ->
     0 < remainingDailyHours st ->
     P (remainingHours (body st).1) (pre ++ subjects (dailySchedule (body st).1))) ->
  forall todo d rem idx sched,
    P rem (allocations sched) ->
    P (remainingAtEnd (days todo d rem idx sched))
      (allocations (schedule (days todo d rem idx sched))).
Proof.
  intros Hbody. induction todo as [|todo IH]; intros d rem idx sched HP.
  - exact HP.
  - rewrite day_loop_S_schedule. cbv zeta.
    change (remainingAtEnd (days (S todo) d rem idx sched)) with
      (remainingAtEnd
         (days todo (S d)
            (remainingHours (final (loop (fuel_at idx) (start d rem idx))))
            (subjectIndex (final (loop (fuel_at idx) (start d rem idx))))
            (push_day (dailySchedule (final (loop (fuel_at idx) (start d rem idx))))
               sched))).
    apply IH. rewrite allocations_push_day.
    apply (fill_day_invariant
             (fun st => P (remainingHours st)
                          (allocations sched ++ subjects (dailySchedule st)))).
    + intros st. apply Hbody.
    + simpl. by rewrite app_nil_r.
Qed.

(** *** A name without an entry *)

Lemma Qnat_pos (n : nat) : 0 <= Qnat n.
Proof. apply (Qnat_le 0 n). lia. Qed.

(** A day takes off the budgets what it takes off its hours. *)
Lemma fill_day_spend (fuel d : nat) (rem : gmap string Q) (idx : nat) :
  NoDup subjectNames -> 0 <= hoursPerDay ->
  let st := final (loop fuel (start d rem idx)) in
  0 <= remainingDailyHours st /\
  total_budget subjectNames (remainingHours st) - remainingDailyHours st
  == total_budget subjectNames rem - hoursPerDay /\
  round_inv hoursPerDay st.
Proof.
  intros Hnd HH.
  apply (fill_day_invariant (fun st =>
    0 <= remainingDailyHours st /\
    total_budget subjectNames (remainingHours st) - remainingDailyHours st
    == total_budget subjectNames rem - hoursPerDay /\
    round_inv hoursPerDay st)).
  - intros st (Hd & Hsum & Hround) Hpos.
    split; [|split; [|by apply round_inv_session]]; rewrite session_state;
      destruct (offer_cases st) as [[-> _]|(cur & r & Hcur & Hr & Hr0 & ->)];
      try assumption; simpl;
      destruct (Math_min_spec (remainingDailyHours st) r 2) as (Ht & _ & _ & _).
    + lra.
    + rewrite (total_budget_insert _ _ _ r) by
        (try assumption; by eapply list_elem_of_lookup_2). lra.
  - simpl. split; [assumption|]. split; [lra|].
    unfold round_inv; simpl.
    split; [reflexivity|]. split; [lra|]. split; [constructor|]. split; [lra|by left].
Qed.






End Loops.

(** ** Concrete inputs *)

Lemma valid_scenarioA : valid_input scenarioA 6 10.
Proof.
  unfold valid_input, scenarioA. split; [discriminate|]. split.
  - refine (bool_decide_unpack _ _). vm_compute. exact I.
  - split; [repeat constructor; discriminate|]. split; [reflexivity|].
    split; [discriminate|lia].
Defined.

Lemma plain_scenarioA : proto_name ∉ scenarioA.
Proof. refine (bool_decide_unpack _ _). vm_compute. exact I. Defined.

Lemma valid_proto : valid_input [proto_name] 2 1.
Proof.
  unfold valid_input. split; [discriminate|]. split.
  - refine (bool_decide_unpack _ _). vm_compute. exact I.
  - split; [repeat constructor; discriminate|]. split; [reflexivity|].
    split; [discriminate|lia].
Defined.

Lemma valid_single_24 : valid_input ["A"%string] 24 1.
Proof.
  unfold valid_input. split; [discriminate|]. split.
  - refine (bool_decide_unpack _ _). vm_compute. exact I.
  - split; [repeat constructor; discriminate|]. split; [reflexivity|].
    split; [discriminate|lia].
Defined.

Lemma valid_three (h : Q) :
  0 < h -> h <= 24 -> valid_input ["A"; "B"; "C"]%string h 1.
Proof.
  intros H0 H24. unfold valid_input. split; [discriminate|]. split.
  - refine (bool_decide_unpack _ _). vm_compute. exact I.
  - split; [repeat constructor; discriminate|]. auto.
Qed.

(** ** The claims *)

(** Every loop of every call ends by one of the exits of the code. *)
Lemma calculateStudyPlan_terminates (subjectNames : list string)
    (hoursPerDay : Q) (totalDays : nat) :
  let run := calculateStudyPlan_run subjectNames hoursPerDay totalDays in
  length (dayRuns run) = totalDays /\
  Forall (fun r => exit r <> OutOfFuel) (dayRuns run).
Proof.
  split; [apply day_loop_runs_length|apply day_loop_fuel].
Qed.

(** *** The second safety check on a single subject *)

(** C1 (conservation), evaluated where it fails: one subject, 24 hours a
    day, one day is a valid input; the loop is left through the second
    safety check after eleven sessions of two hours, so the schedule
    records 22 hours, not 24 within 0.01 x 11. *)
Theorem conservation_single_subject_24h :
  let sched := calculateStudyPlan ["A"%string] 24 1 in
  valid_input ["A"%string] 24 1 /\
  length (allocations sched) = 11%nat /\
  recorded_hours sched == 22 /\
  ~ Qabs (recorded_hours sched - 24 * Qnat 1)
      <= (1 # 100) * Qnat (length (allocations sched)).
Proof.
  cbv zeta. split; [exact valid_single_24|].
  split; [vm_compute; reflexivity|]. split; [vm_compute; reflexivity|].
  vm_compute. intros H. apply H. reflexivity.
Qed.

(** C2 (equal share), evaluated where it fails: on the same input the
    only subject is owed 24 hours and is recorded 22. *)
Theorem equal_share_single_subject_24h :
  let sched := calculateStudyPlan ["A"%string] 24 1 in
  valid_input ["A"%string] 24 1 /\
  recorded_hours_of "A" sched == 22 /\
  ~ Qabs (recorded_hours_of "A" sched - 24 * Qnat 1 / Qnat (length ["A"%string]))
      <= (1 # 100) * Qnat (length (allocations sched)).
Proof.
  cbv zeta. split; [exact valid_single_24|]. split; [vm_compute; reflexivity|].
  vm_compute. intros H. apply H. reflexivity.
Qed.

(** C8 (safety valve), evaluated where it fails: on the same input the
    only day's loop is left through the second safety check, with the
    cursor at 11 and two of the 24 hours still owed. *)
Theorem safety_valve_single_subject_24h :
  let run := calculateStudyPlan_run ["A"%string] 24 1 in
  valid_input ["A"%string] 24 1 /\
  exit <$> dayRuns run = [SafetyValve] /\
  subjectIndex <$> (final <$> dayRuns run) = [11%nat] /\
  (exists r, remainingAtEnd run !! "A"%string = Some r /\ r == 2).
Proof.
  cbv zeta. split; [exact valid_single_24|].
  split; [vm_compute; reflexivity|]. split; [vm_compute; reflexivity|].
  eexists. split; [vm_compute; reflexivity|]. reflexivity.
Qed.




(** X9 (safety check out of reach): with two or more subjects, none of
    them named ["__proto__"], valid inputs never reach the second safety
    check: it takes a single subject, or one without an entry, to cut a
    schedule short. *)
Lemma safety_valve_unreachable_two_subjects (subjectNames : list string)
    (hoursPerDay : Q) (totalDays : nat) :
  valid_input subjectNames hoursPerDay totalDays ->
  proto_name ∉ subjectNames ->
  (2 <= length subjectNames)%nat ->
  Forall (fun r => exit r <> SafetyValve)
         (dayRuns (calculateStudyPlan_run subjectNames hoursPerDay totalDays)).
Proof.
  intros (Hne & Hnd & _ & H0 & H24 & _) Hplain Hn.
  apply day_loop_no_valve; try assumption; [reflexivity| |].
  - apply initialHours_nonneg; [assumption|assumption|lra].
  - apply initialHours_turns.
Qed.

(** *** Scenario D *)

(** C7 (scenario D): four subjects, one hour a day, four days give one
    session of one hour a day, for A, B, C and D in turn. *)
Theorem scenario_D :
  calculateStudyPlan ["A"; "B"; "C"; "D"]%string 1 4 =
  [ mkDayPlan 1 [mkAllocation "A" 1] 1;
    mkDayPlan 2 [mkAllocation "B" 1] 1;
    mkDayPlan 3 [mkAllocation "C" 1] 1;
    mkDayPlan 4 [mkAllocation "D" 1] 1 ].
Proof. vm_compute. reflexivity. Qed.

(** The cursor is what carries the rotation over the days of scenario D:
    each day's loop starts where the previous one stopped. *)
Lemma cursor_carries_over_days :
  (fun r => (subjectIndex <$> head (visited r), subjectIndex (final r)))
    <$> dayRuns (calculateStudyPlan_run ["A"; "B"; "C"; "D"]%string 1 4) =
  [(Some 0, 1); (Some 1, 2); (Some 2, 3); (Some 3, 4)]%nat.
Proof. vm_compute. reflexivity. Qed.

(** *** Rounding *)



(** C4 (daily cap), as stated, fails: for three subjects, two hours a day,
    one day, the sessions are recorded as 0.67 each and add up to 2.01. *)
Lemma daily_cap_counterexample :
  valid_input ["A"; "B"; "C"]%string 2 1 /\
  exists dp, dp ∈ calculateStudyPlan ["A"; "B"; "C"]%string 2 1 /\
    hours <$> subjects dp = [67 # 100; 67 # 100; 67 # 100] /\
    ~ Qsum (hours <$> subjects dp) <= 2.
Proof.
  split; [apply valid_three; [reflexivity|discriminate]|].
  eexists. split; [vm_compute; left|].
  split; [reflexivity|]. vm_compute. intros H. apply H. reflexivity.
Qed.

(** C4, amended: the recorded hours of every plan in the schedule add up
    to at most the hours per day plus a hundredth for each of the plan's
    sessions: rounding adds at most half a hundredth to a session. *)
Theorem daily_cap_with_rounding (subjectNames : list string)
    (hoursPerDay : Q) (totalDays : nat) :
  Forall (fun dp =>
      Qsum (hours <$> subjects dp)
      <= hoursPerDay + (1 # 100) * Qnat (length (subjects dp)))
    (calculateStudyPlan subjectNames hoursPerDay totalDays).
Proof.
  apply Forall_forall. intros dp Hdp.
  unfold calculateStudyPlan, calculateStudyPlan_run in *.
  rewrite day_loop_schedule in Hdp.
  apply schedule_from_runs in Hdp as [Hnil|(r & Hr & Hsome & ->)];
    [by apply elem_of_nil in Hnil|].
  pose proof (day_loop_rounding subjectNames hoursPerDay totalDays totalDays 1
                (initialHours subjectNames hoursPerDay totalDays) 0 []) as Hround.
  rewrite Forall_forall in Hround.
  destruct (Hround r Hr) as (Hrec & _ & Hpos & Hsum & Hleft).
  simpl. rewrite Hrec.
  assert (length (subjects (dailySchedule (final r))) = length (hoursAllocated (final r)))
    as ->.
  { rewrite <- (length_fmap hours), Hrec. apply length_fmap. }
  destruct (Qsum_toFixed2 _ Hpos) as [_ Hhi].
  pose proof (Qnat_pos (length (hoursAllocated (final r)))) as Hlen.
  destruct Hleft as [Hnone|Hleft]; [|lra].
  rewrite Hnone in Hrec. simpl in Hrec.
  apply fmap_nil_inv in Hrec. done.
Qed.

(** *** Budgets and days *)

(** C5 (budget invariant), evaluated where it fails: a single subject
    named ["__proto__"], two hours a day, one day is a valid input; the
    assignment of its share creates no entry, and no state the loop goes
    through has one, so there is no entry that stays at or above zero;
    the subject is never served and never counts as exhausted, the loop
    makes eleven idle passes and is left through the second safety check,
    and the schedule is empty. *)
Theorem budget_entry_missing_proto :
  let run := calculateStudyPlan_run [proto_name] 2 1 in
  valid_input [proto_name] 2 1 /\
  initialHours [proto_name] 2 1 = ∅ /\
  Forall (fun r =>
      Forall (fun st => remainingHours st !! proto_name = None) (visited r))
    (dayRuns run) /\
  ~ budgets_nonneg [proto_name] (initialHours [proto_name] 2 1) /\
  exit <$> dayRuns run = [SafetyValve] /\
  subjectIndex <$> (final <$> dayRuns run) = [11%nat] /\
  calculateStudyPlan [proto_name] 2 1 = [].
Proof.
  cbv zeta. split; [exact valid_proto|].
  split; [reflexivity|]. split.
  { refine (bool_decide_unpack _ _). vm_compute. exact I. }
  split.
  { intros H. destruct (H proto_name) as (r & Hr & _); [left|]. discriminate. }
  split; [vm_compute; reflexivity|]. split; vm_compute; reflexivity.
Qed.

(** X22 (budget invariant for plain names): on a valid input with no
    subject named ["__proto__"] every day's loop ends without running out
    of fuel; in every state the loops go through, each subject has an entry
    in [remainingHours] and it is not negative; and when no day's loop is
    left through the second safety check, every subject's entry is zero at
    the end. *)
Theorem budget_invariant_plain_names (subjectNames : list string) (hoursPerDay : Q)
    (totalDays : nat) :
  valid_input subjectNames hoursPerDay totalDays ->
  proto_name ∉ subjectNames ->
  let run := calculateStudyPlan_run subjectNames hoursPerDay totalDays in
  Forall (fun r => exit r <> OutOfFuel) (dayRuns run) /\
  Forall (fun r =>
      Forall (fun st => budgets_nonneg subjectNames (remainingHours st)) (visited r))
    (dayRuns run) /\
  (Forall (fun r => exit r <> SafetyValve) (dayRuns run) ->
   budgets_zero subjectNames (remainingAtEnd run)).
Proof.
  intros (Hne & Hnd & _ & H0 & _ & _) Hplain run.
  assert (0 <= hoursPerDay) as HH by lra.
  pose proof (initialHours_nonneg subjectNames hoursPerDay totalDays Hne Hplain HH) as Hb.
  split; [apply day_loop_fuel|]. split.
  - by apply budget_plan_nonneg.
  - apply budget_plan_zero; try assumption.
    by apply initialHours_total.
Qed.

(** The budget invariant on scenario A. *)
Lemma budget_invariant_plain_names_witness :
  valid_input scenarioA 6 10 /\ (proto_name ∉ scenarioA) /\
  let run := calculateStudyPlan_run scenarioA 6 10 in
  Forall (fun r => exit r <> OutOfFuel) (dayRuns run) /\
  Forall (fun r =>
      Forall (fun st => budgets_nonneg scenarioA (remainingHours st)) (visited r))
    (dayRuns run) /\
  (Forall (fun r => exit r <> SafetyValve) (dayRuns run) ->
   budgets_zero scenarioA (remainingAtEnd run)).
Proof.
  split; [exact valid_scenarioA|]. split; [exact plain_scenarioA|].
  exact (budget_invariant_plain_names scenarioA 6 10 valid_scenarioA plain_scenarioA).
Defined.

(** C6 (day-index structure): on a valid input the schedule has at most
    [totalDays] plans, their day numbers are 1, 2, ..., k in this order,
    hence strictly increasing, and no plan has an empty list of
    sessions. *)
Theorem day_index_structure (subjectNames : list string) (hoursPerDay : Q)
    (totalDays : nat) :
  valid_input subjectNames hoursPerDay totalDays ->
  let sched := calculateStudyPlan subjectNames hoursPerDay totalDays in
  (length sched <= totalDays)%nat /\
  day <$> sched = seq 1 (length sched) /\
  (forall i j di dj, (i < j)%nat ->
     (day <$> sched) !! i = Some di -> (day <$> sched) !! j = Some dj -> (di < dj)%nat) /\
  Forall (fun dp => subjects dp <> []) sched.
Proof.
  intros (Hne & Hnd & _ & H0 & H24 & _) sched.
  destruct (day_loop_prefix subjectNames hoursPerDay totalDays totalDays 0
              (initialHours subjectNames hoursPerDay totalDays) 0 [] Hnd H0 H24
              ltac:(reflexivity))
    as (new & Hsched & Hdays & Hlen & Hfull).
  - intros _. apply initialHours_turns.
  - change (sched = new) in Hsched. rewrite Hsched.
    split; [assumption|]. split; [assumption|]. split; [|assumption].
    rewrite Hdays. intros i j di dj Hij Hi Hj.
    apply lookup_seq in Hi as [-> _]. apply lookup_seq in Hj as [-> _]. lia.
Qed.

(** The day-index structure on scenario A. *)
Lemma day_index_structure_witness :
  valid_input scenarioA 6 10 /\
  let sched := calculateStudyPlan scenarioA 6 10 in
  (length sched <= 10)%nat /\
  day <$> sched = seq 1 (length sched) /\
  (forall i j di dj, (i < j)%nat ->
     (day <$> sched) !! i = Some di -> (day <$> sched) !! j = Some dj -> (di < dj)%nat) /\
  Forall (fun dp => subjects dp <> []) sched.
Proof.
  split; [exact valid_scenarioA|].
  exact (day_index_structure scenarioA 6 10 valid_scenarioA).
Defined.

(** *** The empty subject list *)



(** C10 (validator gap): for hours per day in (0, 24] and a positive
    number of days, the subject fields [","] and [", ,"] are not empty and
    are left as they are by [trim]; [validateInputs] accepts them,
    [parseSubjects] maps them to the empty list, and [generateStudyPlan]
    calls [calculateStudyPlan] with the empty list and displays its
    result for zero subjects. *)
Theorem validator_gap (h : Q) (d : Z) :
  0 < h -> h <= 24 -> (0 < d)%Z ->
  Forall (fun field : string =>
      field <> EmptyString /\
      trim field = field /\
      isValid (validateInputs field (Some h) (Some d)) = true /\
      parseSubjects field = [] /\
      generateStudyPlan field (Some h) (Some d) =
        displayResults (calculateStudyPlan [] h (Z.to_nat d)) 0 h d)
    [","; ", ,"]%string.
Proof.
  intros H0 H24 Hd.
  assert (Qle_bool h 0 = false) as E0.
  { apply not_true_iff_false. rewrite Qle_bool_iff. lra. }
  assert (Qle_bool h 24 = true) as E24 by (by apply Qle_bool_iff).
  assert ((d <=? 0)%Z = false) as Ed by (by apply Z.leb_gt).
  repeat constructor; try discriminate;
    unfold generateStudyPlan, validateInputs; simpl; rewrite E0, E24, Ed; reflexivity.
Qed.

(** The validator gap at two hours a day and one day. *)
Lemma validator_gap_witness :
  (0 < 2 /\ 2 <= 24 /\ (0 < 1)%Z) /\
  Forall (fun field : string =>
      field <> EmptyString /\
      trim field = field /\
      isValid (validateInputs field (Some 2) (Some 1%Z)) = true /\
      parseSubjects field = [] /\
      generateStudyPlan field (Some 2) (Some 1%Z) =
        displayResults (calculateStudyPlan [] 2 (Z.to_nat 1)) 0 2 1)
    [","; ", ,"]%string.
Proof.
  split; [split; [reflexivity|split; [discriminate|reflexivity]]|].
  apply (validator_gap 2 1); [reflexivity|discriminate|reflexivity].
Defined.



(** * Further properties of the scheduler *)

Section Robustness.

Variable subjectNames : list string.
Variable hoursPerDay : Q.
Variable totalDays : nat.

(* the definitions of the scheduler at these parameters *)
Local Abbreviation body := (session subjectNames totalDays).
Local Abbreviation loop := (fill_day subjectNames totalDays).
Local Abbreviation fuel_at := (day_fuel subjectNames totalDays).
Local Abbreviation start := (start_of_day hoursPerDay).
Local Abbreviation days := (day_loop subjectNames hoursPerDay totalDays).
Local Abbreviation limit := (valveLimit subjectNames totalDays).

(** *** Sessions *)

(** Rounding to two decimals keeps a number between 0 and 2 there. *)
Lemma toFixed2_range (x : Q) : 0 <= x -> x <= 2 -> 0 <= toFixed2 x /\ toFixed2 x <= 2.
Proof.
  intros H0 H2. unfold toFixed2.
  apply Qle_bool_iff in H0 as Hb. rewrite Hb, Qred_correct, Qmake_100.
  unfold round_half_up.
  assert (0 <= Qfloor (x * 100 + (1 # 2)) <= 200)%Z as [Hlo Hhi].
  { split.
    - change 0%Z with (Qfloor (1 # 2)). apply Qfloor_resp_le. lra.
    - change 200%Z with (Qfloor (200 + (1 # 2))). apply Qfloor_resp_le. lra. }
  rewrite Zle_Qle in Hlo, Hhi.
  change (inject_Z 0) with 0 in Hlo. change (inject_Z 200) with 200 in Hhi. lra.
Qed.

Lemma session_ok_session (st : LoopState) :
  Forall (session_ok subjectNames) (subjects (dailySchedule st)) ->
  0 < remainingDailyHours st ->
  Forall (session_ok subjectNames) (subjects (dailySchedule (body st).1)).
Proof.
  intros Hok Hpos. rewrite session_state.
  destruct (offer_cases subjectNames st) as [[-> _]|(cur & r & Hcur & _ & Hr & ->)];
    [assumption|].
  simpl. apply Forall_app. split; [assumption|]. constructor; [|constructor].
  destruct (Math_min_spec (remainingDailyHours st) r 2) as (_ & _ & H2 & _).
  pose proof (Math_min_pos (remainingDailyHours st) r 2 Hpos Hr ltac:(lra)) as H0.
  split; simpl; [by eapply list_elem_of_lookup_2|].
  apply toFixed2_range; [lra|assumption].
Qed.

Lemma day_loop_sessions_ok (todo d : nat) (rem : gmap string Q) (idx : nat)
    (sched : list DayPlan) :
  Forall (session_ok subjectNames) (allocations sched) ->
  Forall (session_ok subjectNames) (allocations (schedule (days todo d rem idx sched))).
Proof.
  apply (day_loop_accounts subjectNames hoursPerDay totalDays
           (fun _ allocs => Forall (session_ok subjectNames) allocs)).
  intros pre st H Hpos. apply Forall_app in H as [Hpre Hst].
  apply Forall_app. split; [assumption|]. by apply session_ok_session.
Qed.

(** *** A subject's share *)

Lemma budgets_nonneg_session (st : LoopState) :
  budgets_nonneg subjectNames (remainingHours st) ->
  0 < remainingDailyHours st ->
  budgets_nonneg subjectNames (remainingHours (body st).1).
Proof.
  intros Hb Hpos. rewrite session_state.
  destruct (offer_cases subjectNames st) as [[-> _]|(cur & r & _ & Hr & Hr0 & ->)];
    [assumption|].
  destruct (Math_min_spec (remainingDailyHours st) r 2) as (_ & Ht & _ & _).
  intros s Hs. simpl. destruct (decide (cur = s)) as [<-|Hne].
  - eexists. rewrite lookup_insert_eq. split; [reflexivity|lra].
  - rewrite lookup_insert_ne by done. by apply Hb.
Qed.

Lemma own_share_inv_session (a : Q) (s : string) (pre : list Allocation)
    (st : LoopState) :
  own_share_inv a s (remainingHours st) (pre ++ subjects (dailySchedule st)) ->
  0 < remainingDailyHours st ->
  own_share_inv a s (remainingHours (body st).1)
                (pre ++ subjects (dailySchedule (body st).1)).
Proof.
  intros [Hlo Hhi] Hpos. rewrite session_state.
  destruct (offer_cases subjectNames st) as [[-> _]|(cur & r & _ & Hr & Hr0 & ->)].
  { split; assumption. }
  unfold own_share_inv; simpl.
  set (take := Math_min (remainingDailyHours st) r 2).
  pose proof (Math_min_pos (remainingDailyHours st) r 2 Hpos Hr0 ltac:(lra)) as Ht0.
  fold take in Ht0.
  destruct (toFixed2_error take ltac:(lra)) as [Hrlo Hrhi].
  rewrite app_assoc, sessions_of_app.
  unfold sessions_of at 2 4 6 8. simpl.
  destruct (String.eqb_spec cur s) as [->|Hne]; simpl.
  - rewrite fmap_app, Qsum_app, Qnat_length_snoc. simpl.
    unfold budget in *. rewrite lookup_insert_eq. rewrite Hr in Hlo, Hhi.
    simpl in *. lra.
  - rewrite app_nil_r. unfold budget in *. rewrite lookup_insert_ne by done.
    split; assumption.
Qed.

(** *** The hours of a day and of the plan *)

(** What the pushed days add to the recorded hours is bounded by the hours
    per day of the days run. *)
Lemma recorded_hours_runs (runs : list DayRun) (sched : list DayPlan) :
  0 <= hoursPerDay ->
  Forall (fun r => round_inv hoursPerDay (final r)) runs ->
  let sched' := foldl (fun s r => push_day (dailySchedule (final r)) s) sched runs in
  recorded_hours sched' - (1 # 200) * Qnat (length (allocations sched'))
  <= recorded_hours sched - (1 # 200) * Qnat (length (allocations sched))
     + hoursPerDay * Qnat (length runs).
Proof.
  intros HH Hruns. revert sched.
  induction Hruns as [|r runs (Hrec & _ & Hpos & Hsum & Hleft) _ IH]; intros sched.
  - simpl. change (Qnat 0) with 0. lra.
  - cbn [foldl]. cbv zeta. eapply Qle_trans; [apply IH|].
    change (length (r :: runs)) with (S (length runs)).
    unfold recorded_hours. rewrite allocations_push_day, fmap_app, Qsum_app, Hrec.
    rewrite length_app, Qnat_S.
    assert (length (subjects (dailySchedule (final r))) = length (hoursAllocated (final r)))
      as ->.
    { rewrite <- (length_fmap hours), Hrec. apply length_fmap. }
    assert (Qnat (length (allocations sched) + length (hoursAllocated (final r)))
            == Qnat (length (allocations sched)) + Qnat (length (hoursAllocated (final r))))
      as ->.
    { unfold Qnat. by rewrite Nat2Z.inj_add, inject_Z_plus. }
    destruct (Qsum_toFixed2 _ Hpos) as [_ Hhi].
    destruct Hleft as [Hnone|Hleft]; [|lra].
    rewrite Hnone in *. simpl in *. change (Qnat 0) with 0 in *. lra.
Qed.

(** *** The days, for any input *)

Lemma day_loop_days_sorted (todo d : nat) (rem : gmap string Q) (idx : nat)
    (sched : list DayPlan) :
  exists new,
    schedule (days todo d rem idx sched) = sched ++ new /\
    StronglySorted lt (day <$> new) /\
    Forall (fun x => d <= x < d + todo)%nat (day <$> new) /\
    Forall (fun dp => subjects dp <> []) new /\
    (length new <= todo)%nat.
Proof.
  revert d rem idx sched. induction todo as [|todo IH]; intros d rem idx sched.
  - exists []. simpl. rewrite app_nil_r. repeat split; constructor.
  - rewrite day_loop_S_schedule. cbv zeta.
    set (st := final (loop (fuel_at idx) (start d rem idx))).
    destruct (IH (S d) (remainingHours st) (subjectIndex st)
                (push_day (dailySchedule st) sched))
      as (new & Hsched & Hsorted & Hrange & Hfull & Hlen).
    assert (Forall (fun x => d < x /\ d <= x < d + S todo)%nat (day <$> new)) as Hrange'.
    { eapply Forall_impl; [exact Hrange|]. simpl. lia. }
    unfold push_day in Hsched |- *.
    destruct (subjects (dailySchedule st)) as [|a l] eqn:Hsub.
    + exists new. split; [assumption|]. split; [assumption|].
      split; [|split; [assumption|lia]].
      eapply Forall_impl; [exact Hrange'|]. simpl. lia.
    + eexists (_ :: new). split; [by rewrite Hsched, <- app_assoc|].
      rewrite fmap_cons. simpl. unfold st at 1 2. rewrite fill_day_day.
      split; [|split; [|split; [|lia]]].
      * constructor; [assumption|]. eapply Forall_impl; [exact Hrange'|]. simpl. lia.
      * constructor; [lia|]. eapply Forall_impl; [exact Hrange'|]. simpl. lia.
      * constructor; [simpl; done|assumption].
Qed.

(** *** Days that are filled *)

Lemma not_exhausted_of_total (rem : gmap string Q) :
  budgets_nonneg subjectNames rem -> 0 < total_budget subjectNames rem ->
  forallb (exhausted rem) subjectNames = false.
Proof.
  intros Hb Hpos. destruct (forallb _ _) eqn:Hall; [exfalso|reflexivity].
  pose proof (proj1 (all_exhausted_spec subjectNames rem) Hall) as Hex.
  rewrite (total_budget_zero subjectNames rem) in Hpos; [lra|].
  intros s Hs. destruct (Hex s Hs) as (x & Hx & Hx0), (Hb s Hs) as (y & Hy & Hy0).
  rewrite Hx in Hy. injection Hy as <-. exists x. split; [assumption|lra].
Qed.

(** On a valid input no day is dropped: the budgets owed at the top of a
    day cover the hours of the days to come, so some subject has hours
    left. *)
Lemma day_loop_all_days (todo k : nat) (rem : gmap string Q) (idx : nat)
    (sched : list DayPlan) :
  subjectNames <> [] -> NoDup subjectNames ->
  0 < hoursPerDay -> hoursPerDay <= 24 -> (k + todo = totalDays)%nat ->
  budgets_nonneg subjectNames rem ->
  ((2 <= length subjectNames)%nat ->
   turn_inv subjectNames (hoursPerSubject subjectNames hoursPerDay totalDays) k idx rem) ->
  hoursPerDay * Qnat todo <= total_budget subjectNames rem ->
  exists new,
    schedule (days todo (S k) rem idx sched) = sched ++ new /\
    day <$> new = seq (S k) todo /\
    Forall (fun dp => subjects dp <> []) new.
Proof.
  intros Hne Hnd HH H24. revert k rem idx sched.
  induction todo as [|todo IH]; intros k rem idx sched Hk Hb Hturn Htot.
  - exists []. simpl. rewrite app_nil_r. auto.
  - rewrite Qnat_S in Htot. pose proof (Qnat_pos todo) as Htodo.
    assert (forallb (exhausted rem) subjectNames = false) as Hsome.
    { apply not_exhausted_of_total; [assumption|nra]. }
    rewrite day_loop_S_schedule. cbv zeta.
    set (r := loop (fuel_at idx) (start (S k) rem idx)).
    destruct (budget_day subjectNames hoursPerDay totalDays
                (total_budget subjectNames rem - hoursPerDay) (fuel_at idx)
                (S k) rem idx Hnd ltac:(lra) Hb ltac:(right; lra)) as (_ & Hb' & _).
    destruct (fill_day_spend subjectNames hoursPerDay totalDays (fuel_at idx) (S k) rem idx
                Hnd ltac:(lra))
      as (Hleft & Hspend & _).
    fold r in Hb', Hleft, Hspend.
    assert (subjects (dailySchedule (final r)) <> [] /\
            ((2 <= length subjectNames)%nat ->
             turn_inv subjectNames (hoursPerSubject subjectNames hoursPerDay totalDays)
                      (S k) (subjectIndex (final r)) (remainingHours (final r))))
      as [Hsess Hturn'].
    { destruct (decide (2 <= length subjectNames)%nat) as [Hn|Hn].
      - destruct (day_two_subjects subjectNames hoursPerDay totalDays k rem idx Hn Hnd
                    HH H24 ltac:(lia) Hb (Hturn Hn)) as (_ & _ & Ht & Hs).
        split; [by apply Hs|intros _; exact Ht].
      - split; [|lia]. apply day_one_subject; try assumption.
        destruct subjectNames as [|? [|]]; simpl in *; [done|reflexivity|lia]. }
    destruct (IH (S k) (remainingHours (final r)) (subjectIndex (final r))
                (push_day (dailySchedule (final r)) sched) ltac:(lia) Hb' Hturn'
                ltac:(nra))
      as (new & Hsched & Hdays & Hfull).
    unfold push_day in Hsched |- *.
    destruct (subjects (dailySchedule (final r))) as [|a l] eqn:Hsub; [done|].
    eexists (_ :: new). split; [|split].
    + rewrite Hsched, <- app_assoc. reflexivity.
    + rewrite fmap_cons, Hdays. simpl. unfold r. rewrite fill_day_day. reflexivity.
    + constructor; [simpl; done|assumption].
Qed.


(** *** The cursor *)




End Robustness.

(** * Properties of the parser and the validator *)

(** ** [trim] *)

Lemma trimStart_chars (s : string) :
  String.list_ascii_of_string (trimStart s) =
  drop_whitespace (String.list_ascii_of_string s).
Proof.
  induction s as [|c s IH]; simpl; [reflexivity|].
  destruct (is_whitespace c); [assumption|reflexivity].
Qed.

Lemma trim_chars (s : string) :
  String.list_ascii_of_string (trim s) =
  rev (drop_whitespace (rev (drop_whitespace (String.list_ascii_of_string s)))).
Proof.
  unfold trim, reverse_string.
  by rewrite String.list_ascii_of_string_of_list_ascii, trimStart_chars,
    String.list_ascii_of_string_of_list_ascii, trimStart_chars.
Qed.

Lemma string_chars_inj (s t : string) :
  String.list_ascii_of_string s = String.list_ascii_of_string t -> s = t.
Proof.
  intros E. rewrite <- (String.string_of_list_ascii_of_string s),
    <- (String.string_of_list_ascii_of_string t). by rewrite E.
Qed.

Lemma drop_whitespace_fixed (l : list ascii) :
  drop_whitespace l = l <->
  match l with [] => True | c :: _ => is_whitespace c = false end.
Proof.
  destruct l as [|c l]; simpl; [done|].
  destruct (is_whitespace c) eqn:E; [|done]. split; [|done].
  intros H. exfalso.
  assert (forall k, length (drop_whitespace k) <= length k)%nat as Hlen.
  { induction k as [|x k IHk]; simpl; [lia|]. destruct (is_whitespace x); simpl; lia. }
  specialize (Hlen l). rewrite H in Hlen. simpl in Hlen. lia.
Qed.

Lemma drop_whitespace_idem (l : list ascii) :
  drop_whitespace (drop_whitespace l) = drop_whitespace l.
Proof.
  induction l as [|c l IH]; simpl; [reflexivity|].
  destruct (is_whitespace c) eqn:E; [assumption|]. simpl. by rewrite E.
Qed.

Lemma drop_whitespace_snoc (l : list ascii) (c : ascii) :
  is_whitespace c = false -> drop_whitespace (l ++ [c]) = drop_whitespace l ++ [c].
Proof.
  intros Hc. induction l as [|x l IH]; simpl; [by rewrite Hc|].
  destruct (is_whitespace x); [assumption|reflexivity].
Qed.

Lemma drop_whitespace_nil (l : list ascii) :
  drop_whitespace l = [] <-> forallb is_whitespace l = true.
Proof.
  induction l as [|c l IH]; simpl; [done|].
  destruct (is_whitespace c); simpl; [assumption|]. split; discriminate.
Qed.

Lemma drop_whitespace_forall (f : ascii -> bool) (l : list ascii) :
  forallb f l = true -> forallb f (drop_whitespace l) = true.
Proof.
  induction l as [|c l IH]; simpl; [done|].
  intros [Hc Hl]%andb_true_iff.
  destruct (is_whitespace c); [by apply IH|]. simpl. by rewrite Hc, Hl.
Qed.

Lemma forallb_rev {A : Type} (f : A -> bool) (l : list A) :
  forallb f (rev l) = forallb f l.
Proof.
  induction l as [|x l IH]; simpl; [reflexivity|].
  rewrite forallb_app, IH. simpl. rewrite andb_true_r. apply andb_comm.
Qed.

(** [trim] keeps only characters of its argument. *)
Lemma trim_chars_all (f : ascii -> bool) (s : string) :
  chars_all f s = true -> chars_all f (trim s) = true.
Proof.
  unfold chars_all. rewrite trim_chars, forallb_rev. intros H.
  apply drop_whitespace_forall. rewrite forallb_rev. by apply drop_whitespace_forall.
Qed.

(** [trim] gives the empty string exactly on strings of white space. *)
Lemma trim_empty (s : string) :
  trim s = EmptyString <-> chars_all is_whitespace s = true.
Proof.
  unfold chars_all. split.
  - intros E. apply (f_equal String.list_ascii_of_string) in E.
    rewrite trim_chars in E. simpl in E.
    apply (f_equal (@rev ascii)) in E. rewrite rev_involutive in E. simpl in E.
    apply drop_whitespace_nil in E. rewrite forallb_rev in E.
    destruct (drop_whitespace (String.list_ascii_of_string s)) as [|c l] eqn:El.
    + by apply drop_whitespace_nil.
    + pose proof (drop_whitespace_idem (String.list_ascii_of_string s)) as Hid.
      rewrite El in Hid. apply drop_whitespace_fixed in Hid.
      simpl in E. rewrite Hid in E. discriminate.
  - intros H. apply string_chars_inj. rewrite trim_chars.
    apply drop_whitespace_nil in H. by rewrite H.
Qed.

(** The characters of [trim s] neither start nor end with white space. *)
Lemma trim_chars_fixed (s : string) :
  let l := String.list_ascii_of_string (trim s) in
  drop_whitespace l = l /\ drop_whitespace (rev l) = rev l.
Proof.
  cbv zeta. rewrite trim_chars.
  set (m := drop_whitespace (String.list_ascii_of_string s)).
  assert (drop_whitespace m = m) as Hm by apply drop_whitespace_idem.
  split; [|by rewrite rev_involutive, drop_whitespace_idem].
  destruct m as [|c m']; [reflexivity|].
  apply drop_whitespace_fixed in Hm. simpl.
  rewrite drop_whitespace_snoc by assumption.
  rewrite rev_app_distr. simpl. by rewrite Hm.
Qed.

(** ** [split(',')] *)

Lemma split_comma_cons (s : string) : exists piece pieces, split_comma s = piece :: pieces.
Proof.
  destruct s as [|c s]; simpl; [by eexists _, _|].
  destruct (Ascii.eqb c ","); [by eexists _, _|].
  destruct (split_comma s); by eexists _, _.
Qed.

Lemma split_comma_no_comma (s : string) :
  Forall (fun piece => chars_all (fun c => negb (is_comma c)) piece = true) (split_comma s).
Proof.
  induction s as [|c s IH]; simpl; [by repeat constructor|].
  destruct (Ascii.eqb c ",") eqn:Ec; [by constructor|].
  destruct (split_comma s) as [|piece pieces]; [|apply Forall_cons in IH as [Hp Hps]];
    constructor; try assumption; try constructor;
    unfold chars_all, is_comma in *; simpl; by rewrite Ec.
Qed.

(** A string without commas is its own single piece, and a piece without
    commas is cut off at the comma that follows it. *)
Lemma split_comma_piece (x : string) :
  chars_all (fun c => negb (is_comma c)) x = true ->
  split_comma x = [x] /\
  forall rest, split_comma (x ++ String "," rest) = x :: split_comma rest.
Proof.
  unfold chars_all, is_comma. induction x as [|c x IH]; simpl.
  - intros _. split; reflexivity.
  - intros [Hc Hx]%andb_true_iff. apply negb_true_iff in Hc. rewrite Hc.
    destruct (IH Hx) as [-> Hrest]. split; [reflexivity|].
    intros rest. by rewrite Hrest.
Qed.

Lemma split_comma_blank (s : string) :
  forallb (chars_all is_whitespace) (split_comma s) = chars_all blank_char s.
Proof.
  unfold chars_all, blank_char, is_comma. induction s as [|c s IH]; simpl; [reflexivity|].
  destruct (Ascii.eqb c ",") eqn:Ec; simpl.
  - rewrite IH. by rewrite orb_true_r.
  - rewrite orb_false_r, <- IH.
    destruct (split_comma_cons s) as (piece & pieces & ->). simpl.
    by rewrite andb_assoc.
Qed.

(** * Further properties: the theorems *)

(** ** The scheduler on any input *)

(** X1 (sessions): whatever the input, every session of the schedule
    names a subject of the input and records between 0 and 2 hours. *)
Theorem sessions_within_cap (subjectNames : list string) (hoursPerDay : Q)
    (totalDays : nat) :
  Forall (session_ok subjectNames)
         (allocations (calculateStudyPlan subjectNames hoursPerDay totalDays)).
Proof.
  apply day_loop_sessions_ok. constructor.
Qed.

(** X2 (day numbers on any input): whatever the input, the schedule has at
    most [totalDays] plans, their day numbers increase strictly and lie
    between 1 and [totalDays], and no plan is without sessions. *)
Theorem days_increasing_any_input (subjectNames : list string) (hoursPerDay : Q)
    (totalDays : nat) :
  let sched := calculateStudyPlan subjectNames hoursPerDay totalDays in
  (length sched <= totalDays)%nat /\
  StronglySorted lt (day <$> sched) /\
  Forall (fun d => 1 <= d <= totalDays)%nat (day <$> sched) /\
  Forall (fun dp => subjects dp <> []) sched.
Proof.
  destruct (day_loop_days_sorted subjectNames hoursPerDay totalDays totalDays 1
              (initialHours subjectNames hoursPerDay totalDays) 0 [])
    as (new & Hsched & Hsorted & Hrange & Hfull & Hlen).
  cbv zeta. unfold calculateStudyPlan, calculateStudyPlan_run. rewrite Hsched. simpl.
  split; [assumption|]. split; [assumption|]. split; [|assumption].
  eapply Forall_impl; [exact Hrange|]. simpl. lia.
Qed.

(** X3 (hours never exceeded): when the hours per day are not negative,
    the recorded hours of the schedule are at most the hours available,
    [hoursPerDay * totalDays], plus a hundredth per session. *)
Theorem plan_never_exceeds_hours (subjectNames : list string) (hoursPerDay : Q)
    (totalDays : nat) :
  0 <= hoursPerDay ->
  let sched := calculateStudyPlan subjectNames hoursPerDay totalDays in
  recorded_hours sched
  <= hoursPerDay * Qnat totalDays + (1 # 100) * Qnat (length (allocations sched)).
Proof.
  intros HH sched.
  pose proof (Qnat_pos (length (allocations sched))) as Hlen.
  pose proof (recorded_hours_runs hoursPerDay
                (dayRuns (calculateStudyPlan_run subjectNames hoursPerDay totalDays)) []
                HH (day_loop_rounding subjectNames hoursPerDay totalDays totalDays 1
                      (initialHours subjectNames hoursPerDay totalDays) 0 [])) as H.
  cbv zeta in H. unfold calculateStudyPlan_run in H.
  rewrite <- !day_loop_schedule, day_loop_runs_length in H.
  change (recorded_hours []) with 0 in H. simpl in H. change (Qnat 0) with 0 in H.
  unfold sched, calculateStudyPlan, calculateStudyPlan_run in *. lra.
Qed.

(** The hours are not exceeded for two subjects, three hours a day, two
    days. *)
Lemma plan_never_exceeds_hours_witness :
  0 <= 3 /\
  let sched := calculateStudyPlan ["A"; "B"]%string 3 2 in
  recorded_hours sched <= 3 * Qnat 2 + (1 # 100) * Qnat (length (allocations sched)).
Proof.
  split; [discriminate|].
  apply (plan_never_exceeds_hours ["A"; "B"]%string 3 2). discriminate.
Defined.

(** X4 (no subject above its share): when the hours per day are not
    negative, the recorded hours of a subject of the input are at most the
    equal share [hoursPerDay * totalDays / subjects.length] plus a
    hundredth per session of that subject; this holds for repeated names,
    for a subject without an entry and however the loops are left. *)
Theorem subject_never_over_share (subjectNames : list string) (hoursPerDay : Q)
    (totalDays : nat) (s : string) :
  0 <= hoursPerDay -> s ∈ subjectNames ->
  let sched := calculateStudyPlan subjectNames hoursPerDay totalDays in
  recorded_hours_of s sched
  <= hoursPerDay * Qnat totalDays / Qnat (length subjectNames)
     + (1 # 100) * Qnat (length (sessions_of s (allocations sched))).
Proof.
  intros HH Hs sched.
  set (init := initialHours subjectNames hoursPerDay totalDays).
  pose proof (hoursPerSubject_nonneg subjectNames hoursPerDay totalDays HH) as Hshare.
  assert (0 <= budget init s /\
          budget init s <= hoursPerSubject subjectNames hoursPerDay totalDays)
    as [Hlo0 Hhi0].
  { unfold budget. destruct (init !! s) as [r|] eqn:Hr; simpl; [|lra].
    apply initialHours_entry in Hr as [-> _]. lra. }
  destruct (day_loop_accounts subjectNames hoursPerDay totalDays
              (fun rem allocs =>
                 own_share_inv (budget init s) s rem allocs /\ 0 <= budget rem s))
    with (todo := totalDays) (d := 1%nat) (rem := init)
         (idx := 0%nat) (sched := @nil DayPlan) as [[_ Hhi] Hb].
  - intros pre st [Hown Hb] Hpos. split; [by apply own_share_inv_session|].
    rewrite session_state.
    destruct (offer_cases subjectNames st) as [[-> _]|(cur & r & _ & Hr & Hr0 & ->)];
      [assumption|].
    destruct (Math_min_spec (remainingDailyHours st) r 2) as (_ & Ht & _ & _).
    simpl. unfold budget in *. destruct (decide (cur = s)) as [<-|Hne].
    + rewrite lookup_insert_eq. simpl. lra.
    + by rewrite lookup_insert_ne.
  - split; [|assumption].
    unfold own_share_inv; simpl. change (Qnat 0) with 0. lra.
  - pose proof (Qnat_pos (length (sessions_of s (allocations sched)))) as Hlen.
    unfold hoursPerSubject in Hhi0.
    subst sched init.
    unfold recorded_hours_of, calculateStudyPlan, calculateStudyPlan_run in *. lra.
Qed.

(** No subject is above its share when a name is listed twice. *)
Lemma subject_never_over_share_witness :
  (0 <= 4 /\ "A"%string ∈ ["A"; "A"; "B"]%string) /\
  let sched := calculateStudyPlan ["A"; "A"; "B"]%string 4 3 in
  recorded_hours_of "A" sched
  <= 4 * Qnat 3 / Qnat (length ["A"; "A"; "B"]%string)
     + (1 # 100) * Qnat (length (sessions_of "A" (allocations sched))).
Proof.
  split; [split; [discriminate|constructor]|].
  apply (subject_never_over_share ["A"; "A"; "B"]%string 4 3 "A");
    [discriminate|constructor].
Defined.


(** ** The scheduler on valid input *)

(** X7 (no day is dropped): computing with exact rational arithmetic, on a
    valid input with no subject named ["__proto__"] the schedule has a
    plan for each of the days 1, ..., [totalDays]. *)
Theorem no_day_dropped (subjectNames : list string) (hoursPerDay : Q)
    (totalDays : nat) :
  valid_input subjectNames hoursPerDay totalDays ->
  proto_name ∉ subjectNames ->
  day <$> calculateStudyPlan subjectNames hoursPerDay totalDays = seq 1 totalDays.
Proof.
  intros (Hne & Hnd & _ & H0 & H24 & _) Hplain.
  destruct (day_loop_all_days subjectNames hoursPerDay totalDays totalDays 0
              (initialHours subjectNames hoursPerDay totalDays) 0 [] Hne Hnd H0 H24
              ltac:(reflexivity))
    as (new & Hsched & Hdays & _).
  - apply initialHours_nonneg; [assumption|assumption|lra].
  - intros _. apply initialHours_turns.
  - rewrite initialHours_total by assumption. lra.
  - unfold calculateStudyPlan, calculateStudyPlan_run. by rewrite Hsched.
Qed.

(** No day is dropped in scenario A. *)
Lemma no_day_dropped_witness :
  (valid_input scenarioA 6 10 /\ proto_name ∉ scenarioA) /\
  day <$> calculateStudyPlan scenarioA 6 10 = seq 1 10.
Proof.
  split; [split; [exact valid_scenarioA|exact plain_scenarioA]|].
  exact (no_day_dropped scenarioA 6 10 valid_scenarioA plain_scenarioA).
Defined.




(** The second safety check is not reached in scenario A. *)
Lemma safety_valve_unreachable_two_subjects_witness :
  (valid_input scenarioA 6 10 /\ (proto_name ∉ scenarioA) /\ (2 <= length scenarioA)%nat) /\
  Forall (fun r => exit r <> SafetyValve) (dayRuns (calculateStudyPlan_run scenarioA 6 10)).
Proof.
  assert (2 <= length scenarioA)%nat as Hn by (simpl; lia).
  split; [split; [exact valid_scenarioA|split; [exact plain_scenarioA|exact Hn]]|].
  exact (safety_valve_unreachable_two_subjects scenarioA 6 10 valid_scenarioA
           plain_scenarioA Hn).
Defined.





(** ** The parser *)

(** X12 ([trim] twice): trimming a trimmed string changes nothing. *)
Theorem trim_idempotent (s : string) : trim (trim s) = trim s.
Proof.
  apply string_chars_inj. rewrite (trim_chars (trim s)).
  destruct (trim_chars_fixed s) as [-> ->]. apply rev_involutive.
Qed.

(** X13 ([trim] strips the ends only): a string of characters below 128
    is its trimmed form between two runs of white space, and the trimmed
    form has no white space left to strip at its start or at its end. *)
Theorem trim_strips_ends (s : string) :
  chars_all is_ascii s = true ->
  (exists before after,
     s = String.append before (String.append (trim s) after) /\
     chars_all is_whitespace before = true /\
     chars_all is_whitespace after = true) /\
  trimStart (trim s) = trim s /\
  trimStart (reverse_string (trim s)) = reverse_string (trim s).
Proof.
  intros _.
  assert (forall l, exists a, l = a ++ drop_whitespace l /\ forallb is_whitespace a = true)
    as Hsplit.
  { induction l as [|c l (a & E & Ha)]; [by exists []|]. simpl.
    destruct (is_whitespace c) eqn:Ec; [|by exists []].
    exists (c :: a). simpl. rewrite Ec, Ha. split; [by rewrite <- E|reflexivity]. }
  assert (forall x y, String.list_ascii_of_string (String.append x y) =
                      String.list_ascii_of_string x ++ String.list_ascii_of_string y)
    as Happ.
  { induction x as [|c x IH]; intros y; simpl; [reflexivity|]. by rewrite IH. }
  split; [|split].
  - destruct (Hsplit (String.list_ascii_of_string s)) as (a & Ea & Ha).
    destruct (Hsplit (rev (drop_whitespace (String.list_ascii_of_string s))))
      as (b & Eb & Hb).
    exists (String.string_of_list_ascii a), (String.string_of_list_ascii (rev b)).
    unfold chars_all. rewrite !String.list_ascii_of_string_of_list_ascii, forallb_rev.
    split; [|auto]. apply string_chars_inj.
    rewrite !Happ, trim_chars, !String.list_ascii_of_string_of_list_ascii.
    rewrite Ea at 1. f_equal.
    apply (f_equal (@rev ascii)) in Eb. rewrite rev_involutive, rev_app_distr in Eb.
    exact Eb.
  - apply string_chars_inj. rewrite trimStart_chars. apply trim_chars_fixed.
  - apply string_chars_inj. rewrite trimStart_chars. unfold reverse_string.
    rewrite String.list_ascii_of_string_of_list_ascii. apply trim_chars_fixed.
Qed.

(** The field ["  Math "] is its trimmed form between two spaces and
    one. *)
Lemma trim_strips_ends_witness :
  chars_all is_ascii "  Math " = true /\
  (exists before after,
     "  Math "%string = String.append before (String.append (trim "  Math ") after) /\
     chars_all is_whitespace before = true /\
     chars_all is_whitespace after = true) /\
  trimStart (trim "  Math ") = trim "  Math " /\
  trimStart (reverse_string (trim "  Math ")) = reverse_string (trim "  Math ").
Proof.
  split; [reflexivity|]. apply (trim_strips_ends "  Math "). reflexivity.
Defined.

(** X14 ([split] loses nothing): joining the pieces with commas gives the
    string back. *)
Theorem split_comma_join (s : string) : String.concat "," (split_comma s) = s.
Proof.
  induction s as [|c s IH]; [reflexivity|].
  cbn [split_comma]. destruct (split_comma_cons s) as (piece & pieces & E).
  rewrite E in IH |- *. destruct (Ascii.eqb_spec c ",") as [->|Hc].
  - change (String.concat "," (EmptyString :: piece :: pieces))
      with (String "," (String.concat "," (piece :: pieces))).
    by rewrite IH.
  - destruct pieces as [|p ps]; rewrite <- IH; reflexivity.
Qed.

Lemma parse_pieces_nil (pieces : list string) :
  List.filter (fun subject => (0 <? String.length subject)%nat) (trim <$> pieces) = [] <->
  forallb (chars_all is_whitespace) pieces = true.
Proof.
  induction pieces as [|piece pieces IH]; simpl; [done|].
  destruct (trim piece) as [|c t] eqn:Et; simpl.
  - apply trim_empty in Et. by rewrite Et.
  - assert (chars_all is_whitespace piece = false) as ->; [|simpl; split; discriminate].
    apply not_true_iff_false. intros H. apply trim_empty in H. congruence.
Qed.

(** X15 (no subjects): among the strings of characters below 128,
    [parseSubjects] gives the empty list exactly for those made of commas
    and white space only. *)
Theorem parseSubjects_empty_iff (s : string) :
  chars_all is_ascii s = true ->
  parseSubjects s = [] <-> chars_all blank_char s = true.
Proof.
  intros _. rewrite <- split_comma_blank. apply parse_pieces_nil.
Qed.

(** The field [" , "] has no subjects. *)
Lemma parseSubjects_empty_iff_witness :
  chars_all is_ascii " , " = true /\
  (parseSubjects " , " = [] <-> chars_all blank_char " , " = true).
Proof.
  split; [reflexivity|]. apply (parseSubjects_empty_iff " , "). reflexivity.
Defined.

Lemma parse_pieces_clean (pieces : list string) :
  Forall (fun piece => chars_all (fun c => negb (is_comma c)) piece = true) pieces ->
  Forall clean_name
    (List.filter (fun subject => (0 <? String.length subject)%nat) (trim <$> pieces)).
Proof.
  induction 1 as [|piece pieces Hp _ IH]; simpl; [constructor|].
  destruct (0 <? String.length (trim piece))%nat eqn:Hlen; [|assumption].
  constructor; [|assumption]. split; [|split].
  - intros E. rewrite E in Hlen. discriminate.
  - apply string_chars_inj. rewrite (trim_chars (trim piece)).
    destruct (trim_chars_fixed piece) as [-> ->]. apply rev_involutive.
  - by apply trim_chars_all.
Qed.

(** X16 (clean names): every name [parseSubjects] returns is not empty,
    has no comma and has no white space at either end. *)
Theorem parseSubjects_clean (s : string) : Forall clean_name (parseSubjects s).
Proof.
  apply parse_pieces_clean, split_comma_no_comma.
Qed.

Lemma parse_joined (names : list string) (name : string) (padded : bool) :
  Forall clean_name (name :: names) ->
  parseSubjects (String.append (if padded then " " else "")%string
                   (String.concat ", " (name :: names))) = name :: names.
Proof.
  revert name padded. induction names as [|next names IH]; intros name padded Hclean.
  - apply Forall_cons in Hclean as [(Hne & Htrim & Hcomma) _].
    change (String.concat ", " [name]) with name.
    assert (chars_all (fun c => negb (is_comma c))
              (String.append (if padded then " " else "")%string name) = true) as Hc.
    { destruct padded; [|exact Hcomma]. unfold chars_all in *. simpl. exact Hcomma. }
    unfold parseSubjects. rewrite (proj1 (split_comma_piece _ Hc)). simpl.
    assert (trim (String.append (if padded then " " else "")%string name) = name) as ->.
    { destruct padded; exact Htrim. }
    destruct name; [done|reflexivity].
  - apply Forall_cons in Hclean as [(Hne & Htrim & Hcomma) Hrest].
    change (String.concat ", " (name :: next :: names))
      with (String.append name
              (String "," (String.append " " (String.concat ", " (next :: names))))).
    assert (chars_all (fun c => negb (is_comma c))
              (String.append (if padded then " " else "")%string name) = true) as Hc.
    { destruct padded; [|exact Hcomma]. unfold chars_all in *. simpl. exact Hcomma. }
    assert (String.append (if padded then " " else "")%string
              (String.append name
                 (String "," (String.append " " (String.concat ", " (next :: names)))))
            = String.append (String.append (if padded then " " else "")%string name)
                (String "," (String.append " " (String.concat ", " (next :: names)))))
      as -> by (by destruct padded).
    unfold parseSubjects. rewrite (proj2 (split_comma_piece _ Hc)).
    rewrite fmap_cons. cbn [List.filter].
    assert (trim (String.append (if padded then " " else "")%string name) = name) as ->.
    { destruct padded; exact Htrim. }
    specialize (IH next true Hrest). unfold parseSubjects in IH. rewrite IH.
    destruct name; [done|reflexivity].
Qed.

(** X17 (names come back): joining clean names of characters below 128
    with a comma and a space and parsing the result gives the names back,
    in order. *)
Theorem parseSubjects_join (names : list string) :
  Forall (fun name => chars_all is_ascii name = true) names ->
  Forall clean_name names -> parseSubjects (String.concat ", " names) = names.
Proof.
  destruct names as [|name names]; [reflexivity|]. intros _ Hclean.
  exact (parse_joined names name false Hclean).
Qed.

(** The names of scenario A come back. *)
Lemma parseSubjects_join_witness :
  (Forall (fun name => chars_all is_ascii name = true) scenarioA /\
   Forall clean_name scenarioA) /\
  parseSubjects (String.concat ", " scenarioA) = scenarioA.
Proof.
  assert (Forall (fun name => chars_all is_ascii name = true) scenarioA) as Hascii.
  { repeat constructor. }
  assert (Forall clean_name scenarioA) as Hclean.
  { repeat constructor; discriminate. }
  split; [split; [exact Hascii|exact Hclean]|].
  exact (parseSubjects_join scenarioA Hascii Hclean).
Defined.

(** ** The caller *)

(** X18 (what reaches the scheduler): when [generateStudyPlan] displays
    results for a subjects field of characters below 128, both numbers
    were read, the trimmed subjects field is not
    empty, the hours per day are in (0, 24] and the days are positive; the
    plan displayed is the scheduler's for the parsed names, whose number
    is displayed; the names are clean; and when they are also unique and
    there is at least one, the scheduler was called on a valid input. *)
Theorem generateStudyPlan_displays (subjectsField : string) (hoursPerDay : option Q)
    (daysLeft : option Z) (plan : list DayPlan) (n : nat) (h : Q) (d : Z) :
  chars_all is_ascii subjectsField = true ->
  generateStudyPlan subjectsField hoursPerDay daysLeft = displayResults plan n h d ->
  let names := parseSubjects (trim subjectsField) in
  hoursPerDay = Some h /\ daysLeft = Some d /\
  trim subjectsField <> EmptyString /\
  0 < h /\ h <= 24 /\ (0 < d)%Z /\
  n = length names /\
  plan = calculateStudyPlan names h (Z.to_nat d) /\
  Forall clean_name names /\
  (names <> [] -> NoDup names -> valid_input names h (Z.to_nat d)).
Proof.
  intros _. unfold generateStudyPlan, validateInputs.
  destruct (String.eqb_spec (trim subjectsField) EmptyString) as [|Hfield];
    [discriminate|].
  destruct hoursPerDay as [h'|]; [|discriminate].
  destruct (Qle_bool h' 0) eqn:E0; [discriminate|].
  destruct (Qle_bool h' 24) eqn:E24; [|discriminate].
  destruct daysLeft as [d'|]; [|discriminate].
  destruct (d' <=? 0)%Z eqn:Ed; [discriminate|].
  simpl. intros [= <- <- <- <-].
  assert (0 < h') as H0.
  { apply Qnot_le_lt. intros Hle. apply Qle_bool_iff in Hle. congruence. }
  apply Qle_bool_iff in E24. apply Z.leb_gt in Ed.
  pose proof (parse_pieces_clean _ (split_comma_no_comma (trim subjectsField))) as Hclean.
  fold (parseSubjects (trim subjectsField)) in Hclean.
  repeat split; try assumption; try reflexivity.
  - eapply Forall_impl; [exact Hclean|]. by intros s (? & _).
  - lia.
Qed.

(** Results are displayed for the field [" Math, Physics "], four hours a
    day and three days. *)
Lemma generateStudyPlan_displays_witness :
  (chars_all is_ascii " Math, Physics " = true /\
   generateStudyPlan " Math, Physics " (Some 4) (Some 3%Z) =
     displayResults (calculateStudyPlan ["Math"; "Physics"]%string 4 3) 2 4 3) /\
  let names := parseSubjects (trim " Math, Physics ") in
  Some 4 = Some 4 /\ Some 3%Z = Some 3%Z /\
  trim " Math, Physics " <> EmptyString /\
  0 < 4 /\ 4 <= 24 /\ (0 < 3)%Z /\
  2%nat = length names /\
  calculateStudyPlan ["Math"; "Physics"]%string 4 3 =
    calculateStudyPlan names 4 (Z.to_nat 3) /\
  Forall clean_name names /\
  (names <> [] -> NoDup names -> valid_input names 4 (Z.to_nat 3)).
Proof.
  assert (generateStudyPlan " Math, Physics " (Some 4) (Some 3%Z) =
          displayResults (calculateStudyPlan ["Math"; "Physics"]%string 4 3) 2 4 3) as E.
  { reflexivity. }
  split; [split; [reflexivity|exact E]|].
  exact (generateStudyPlan_displays " Math, Physics " (Some 4) (Some 3%Z) _ 2 4 3
           eq_refl E).
Defined.

(** X19 (blank field): a subjects field of white space only, or empty, is
    answered by the error asking for a subject, whatever the numbers. *)
Theorem generateStudyPlan_blank_field (subjectsField : string)
    (hoursPerDay : option Q) (daysLeft : option Z) :
  chars_all is_whitespace subjectsField = true ->
  generateStudyPlan subjectsField hoursPerDay daysLeft =
  showError (Some "⚠️ Please enter at least one subject."%string).
Proof.
  intros Hblank. apply trim_empty in Hblank.
  unfold generateStudyPlan, validateInputs. by rewrite Hblank.
Qed.

(** A field of three spaces is answered by the error. *)
Lemma generateStudyPlan_blank_field_witness :
  chars_all is_whitespace "   " = true /\
  generateStudyPlan "   " (Some 4) None =
  showError (Some "⚠️ Please enter at least one subject."%string).
Proof.
  split; [reflexivity|].
  apply (generateStudyPlan_blank_field "   " (Some 4) None). reflexivity.
Defined.




